(** * Scholarship data evaluation: the scoring engine of [app.py]

    A shallow embedding of the functions that grade a student table
    against a registry of answer keys ([parse_options], [evaluate_answer],
    and [evaluate] with the bodies of its two loops), together with the
    Python and pandas primitives they call, and the properties of the
    engine proved on that embedding.

    Conventions.
    - A Python [str] is a [string]; text is ASCII, and a character from 128
      on stands for itself (it is not white space and has no case).
    - A Python [int] is a [Z]; a Python [float] is an IEEE 754 binary64
      value, kept as sign, integer significand and binary exponent, with
      round-to-nearest-even written out on [Z].
    - A pandas [Series] is an association list from labels to cells, in
      index order; a [DataFrame] is its column index and the rows that
      [iterrows] yields, each of which has the columns as its index in a
      table that was loaded from a file.
    - [evaluate] mutates a key table and reports warnings: both are kept in
      an explicit world that every step threads, errors included.
    - The code that loads the files ([read_uploaded_file], the loop that
      builds the registry, the button handler) is embedded as well; an
      uploaded file carries what the pandas readers make of it, and the
      errors and successes shown on the page are returned as notices. *)

From Stdlib Require Import ZArith String Ascii List DecimalString Lia.
From stdpp Require Import base option list gmap strings.

#[local] Set Warnings "-clear-no-such-hyp".

Open Scope string_scope.
Open Scope Z_scope.

(** ** Python strings *)

Module PyStr.

(** [str.isspace] on ASCII: tab to carriage return, the four separators
    0x1c to 0x1f, and the space. *)
Definition isspace (c : ascii) : bool :=
  let n := Z.of_nat (nat_of_ascii c) in
  ((9 <=? n) && (n <=? 13)) || ((28 <=? n) && (n <=? 32)).

Definition isdigit (c : ascii) : bool :=
  let n := Z.of_nat (nat_of_ascii c) in (48 <=? n) && (n <=? 57).

(** C's [isspace], which is what [float] trims by: no separators. *)
Definition isspace_c (c : ascii) : bool :=
  let n := Z.of_nat (nat_of_ascii c) in
  ((9 <=? n) && (n <=? 13)) || (n =? 32).

Fixpoint lstrip_by (sp : ascii -> bool) (s : string) : string :=
  match s with
  | String c s' => if sp c then lstrip_by sp s' else s
  | EmptyString => EmptyString
  end.

(** White space is dropped from the right end: a character is kept when
    something is kept to its right or it is not white space itself. *)
Fixpoint rstrip_by (sp : ascii -> bool) (s : string) : string :=
  match s with
  | String c s' =>
      match rstrip_by sp s' with
      | EmptyString => if sp c then EmptyString else String c EmptyString
      | r => String c r
      end
  | EmptyString => EmptyString
  end.

Definition strip_by (sp : ascii -> bool) (s : string) : string :=
  rstrip_by sp (lstrip_by sp s).

(** [s.strip()] *)
Definition strip (s : string) : string := strip_by isspace s.

(** ["," in s], for a one-character needle. *)
Fixpoint contains (sep : ascii) (s : string) : bool :=
  match s with
  | String c s' => if Ascii.eqb c sep then true else contains sep s'
  | EmptyString => false
  end.

(** [s.split(sep)] for a one-character separator: one more piece than
    there are separators, empty pieces included. *)
Fixpoint split (sep : ascii) (s : string) : list string :=
  match s with
  | String c s' =>
      if Ascii.eqb c sep then EmptyString :: split sep s'
      else match split sep s' with
           | p :: ps => String c p :: ps
           | [] => [String c EmptyString]
           end
  | EmptyString => [EmptyString]
  end.

Definition upper_char (c : ascii) : ascii :=
  let n := nat_of_ascii c in
  if (97 <=? n)%nat && (n <=? 122)%nat then ascii_of_nat (n - 32) else c.

Definition lower_char (c : ascii) : ascii :=
  let n := nat_of_ascii c in
  if (65 <=? n)%nat && (n <=? 90)%nat then ascii_of_nat (n + 32) else c.

Fixpoint map_chars (f : ascii -> ascii) (s : string) : string :=
  match s with
  | String c s' => String (f c) (map_chars f s')
  | EmptyString => EmptyString
  end.

(** [s.upper()] and [s.lower()] *)
Definition upper : string -> string := map_chars upper_char.
Definition lower : string -> string := map_chars lower_char.

(** [s.startswith(p)] *)
Definition startswith (p s : string) : bool := String.prefix p s.

(** [str(n)] for an [int]. *)
Definition of_Z (z : Z) : string := NilZero.string_of_int (Z.to_int z).

(** The decimal digits of a string read as a number, most significant
    first; characters that are not digits count as 0 (the callers have
    checked them). *)
Fixpoint digits_value (acc : Z) (s : string) : Z :=
  match s with
  | String c s' => digits_value (10 * acc + (Z.of_nat (nat_of_ascii c) - 48)) s'
  | EmptyString => acc
  end.

Fixpoint all_digits (s : string) : bool :=
  match s with
  | String c s' => isdigit c && all_digits s'
  | EmptyString => true
  end.

(** The longest prefix of digits, and what follows it. *)
Fixpoint span_digits (s : string) : string * string :=
  match s with
  | String c s' =>
      if isdigit c then let '(d, r) := span_digits s' in (String c d, r)
      else (EmptyString, s)
  | EmptyString => (EmptyString, EmptyString)
  end.

Fixpoint repeat_char (c : ascii) (n : nat) : string :=
  match n with
  | O => EmptyString
  | S n' => String c (repeat_char c n')
  end.

(** [s.rstrip("0")] *)
Definition rstrip_zeros (s : string) : string :=
  rstrip_by (fun c => Ascii.eqb c "0") s.

End PyStr.

(** ** Python floats: IEEE 754 binary64 *)

Module PyFloat.

(** [Fin neg m e] is the number [(-1)^neg * m * 2^e].  The functions
    below produce canonical values only: [0 <= m < 2^53],
    [-1074 <= e <= 971], and [2^52 <= m] unless [e = -1074]; the two
    zeros are [Fin false 0 (-1074)] and [Fin true 0 (-1074)]. *)
Inductive float :=
| NaN
| Inf (neg : bool)
| Fin (neg : bool) (m : Z) (e : Z).

Definition emin : Z := -1074.
Definition emax : Z := 971.

Definition float_eqb (x y : float) : bool :=
  match x, y with
  | NaN, NaN => true
  | Inf a, Inf b => Bool.eqb a b
  | Fin a m e, Fin b m' e' => Bool.eqb a b && (m =? m') && (e =? e')
  | _, _ => false
  end.

(** Quotient, remainder and divisor of [(n / d) / 2^e]. *)
Definition scaled_div (n d e : Z) : Z * Z * Z :=
  if 0 <=? e
  then let d' := d * 2 ^ e in (n / d', n mod d', d')
  else let n' := n * 2 ^ (- e) in (n' / d, n' mod d, d).

(** The binary64 value nearest to [n / d] (for [0 <= n], [0 < d]), ties
    to the even significand; what lies beyond the largest finite value
    by half a unit or more becomes an infinity. *)
Definition round_ratio (neg : bool) (n d : Z) : float :=
  if n =? 0 then Fin neg 0 emin else
  let lb := Z.log2 n - Z.log2 d in
  let e1 := Z.max (lb - 52) emin in
  let '(q1, _, _) := scaled_div n d e1 in
  let e := if (q1 <? 2 ^ 52) && (emin <? e1) then e1 - 1 else e1 in
  let '(q, r, dd) := scaled_div n d e in
  let q' := if (dd <? 2 * r) || ((dd =? 2 * r) && Z.odd q) then q + 1 else q in
  let '(m, e') := if q' =? 2 ^ 53 then (2 ^ 52, e + 1) else (q', e) in
  if emax <? e' then Inf neg else Fin neg m e'.

(** [m * 10^e] as a fraction. *)
Definition decimal_ratio (m e : Z) : Z * Z :=
  if 0 <=? e then (m * 10 ^ e, 1) else (m, 10 ^ (- e)).

(** [m * 2^e] as a fraction. *)
Definition binary_ratio (m e : Z) : Z * Z :=
  if 0 <=? e then (m * 2 ^ e, 1) else (m, 2 ^ (- e)).

Definition of_decimal (neg : bool) (m e : Z) : float :=
  let '(n, d) := decimal_ratio m e in round_ratio neg n d.

(** [float(n)] for an [int]: [None] is [OverflowError]. *)
Definition of_int (z : Z) : option float :=
  match round_ratio (z <? 0) (Z.abs z) 1 with
  | Inf _ => None
  | f => Some f
  end.

(** *** [float(s)] for a string *)

(** Underscores may only stand between two digits; they are dropped. *)
Fixpoint remove_underscores (prev : option ascii) (s : string) : option string :=
  match s with
  | String c s' =>
      if Ascii.eqb c "_"
      then match prev with
           | Some p => if PyStr.isdigit p then remove_underscores (Some c) s' else None
           | None => None
           end
      else
        let after_underscore :=
          match prev with Some p => Ascii.eqb p "_" | None => false end in
        if after_underscore && negb (PyStr.isdigit c) then None
        else String c <$> remove_underscores (Some c) s'
  | EmptyString =>
      match prev with
      | Some p => if Ascii.eqb p "_" then None else Some EmptyString
      | None => Some EmptyString
      end
  end.

Definition split_sign (s : string) : bool * string :=
  match s with
  | String "-" s' => (true, s')
  | String "+" s' => (false, s')
  | _ => (false, s)
  end.

(** An exponent part: empty, or [e] or [E], an optional sign and at
    least one digit, up to the end of the string. *)
Definition parse_exponent (s : string) : option Z :=
  match s with
  | EmptyString => Some 0
  | String c s' =>
      if Ascii.eqb c "e" || Ascii.eqb c "E" then
        let '(neg, ds) := split_sign s' in
        match ds with
        | EmptyString => None
        | _ => if PyStr.all_digits ds
               then Some (if neg then - PyStr.digits_value 0 ds else PyStr.digits_value 0 ds)
               else None
        end
      else None
  end.

(** A decimal number: digits, an optional point and more digits (one
    digit at least in all), and an optional exponent. *)
Definition parse_decimal (neg : bool) (s : string) : option float :=
  let '(ip, r1) := PyStr.span_digits s in
  let '(fp, r2) :=
    match r1 with
    | String "." r => PyStr.span_digits r
    | _ => (EmptyString, r1)
    end in
  match ip ++ fp with
  | EmptyString => None
  | ds =>
      ex ← parse_exponent r2;
      Some (of_decimal neg (PyStr.digits_value 0 ds) (ex - Z.of_nat (String.length fp)))
  end.

(** [float(s)]: [None] is [ValueError].  White space around the number
    is ignored, then come an optional sign and either [inf], [infinity]
    or [nan] in any case, or a decimal number. *)
Definition of_string (s : string) : option float :=
  s1 ← remove_underscores None (PyStr.strip_by PyStr.isspace_c s);
  let '(neg, body) := split_sign s1 in
  let l := PyStr.lower body in
  if String.eqb l "inf" || String.eqb l "infinity" then Some (Inf neg)
  else if String.eqb l "nan" then Some NaN
  else parse_decimal neg body.

(** *** [x.is_integer()] and [int(x)] *)

Definition is_integer (x : float) : bool :=
  match x with
  | Fin _ m e => (m =? 0) || (0 <=? e) || (m mod 2 ^ (- e) =? 0)
  | _ => false
  end.

(** [int(x)], truncating towards zero; [None] is the error Python raises
    on an infinity or a NaN. *)
Definition to_int (x : float) : option Z :=
  match x with
  | Fin neg m e =>
      let a := if 0 <=? e then m * 2 ^ e else m / 2 ^ (- e) in
      Some (if neg then - a else a)
  | _ => None
  end.

(** *** [repr(x)], which is also [str(x)] *)

Definition nb_digits (n : Z) : Z :=
  Z.of_nat (String.length (PyStr.of_Z n)).

(** The position of the decimal point of [n / d > 0]: the [k] with
    [10^(k-1) <= n / d < 10^k]. *)
Definition decimal_point (n d : Z) : Z :=
  let dn := nb_digits n in
  let dd := nb_digits d in
  if d * 10 ^ dn <=? n * 10 ^ dd then dn - dd + 1 else dn - dd.

(** The shortest decimal that reads back as [x = n / d], tried with
    [p], [p + 1], ... significant digits: of the two [p]-digit decimals
    around [x], the one that reads back as [x], and the nearer one (the
    even one on a tie) when both do.  The result is the digits as an
    integer [c] and the exponent [s], for [c * 10^s]. *)
Fixpoint shortest_from (fuel : nat) (x : float) (neg : bool) (n d k p : Z)
  : Z * Z :=
  let s := k - p in
  let '(lo, r, dd) :=
    if 0 <=? s
    then let d' := d * 10 ^ s in (n / d', n mod d', d')
    else let n' := n * 10 ^ (- s) in (n' / d, n' mod d, d) in
  let hi := lo + 1 in
  let lo_ok := float_eqb (of_decimal neg lo s) x in
  let hi_ok := float_eqb (of_decimal neg hi s) x in
  let hi_nearer := (dd <? 2 * r) || ((dd =? 2 * r) && Z.odd lo) in
  match fuel with
  | O => (if hi_nearer then hi else lo, s)
  | S fuel' =>
      if lo_ok && hi_ok then (if hi_nearer then hi else lo, s)
      else if lo_ok then (lo, s)
      else if hi_ok then (hi, s)
      else shortest_from fuel' x neg n d k (p + 1)
  end.

(** The digits of [repr] without trailing zeros, and the position of the
    decimal point before them. *)
Definition shortest_digits (neg : bool) (m e : Z) : string * Z :=
  let '(n, d) := binary_ratio m e in
  let k := decimal_point n d in
  let '(c, s) := shortest_from 16 (Fin neg m e) neg n d k 1 in
  let ds := PyStr.of_Z c in
  (PyStr.rstrip_zeros ds, Z.of_nat (String.length ds) + s).

Definition exponent_text (ex : Z) : string :=
  let a := PyStr.of_Z (Z.abs ex) in
  (if ex <? 0 then "-" else "+") ++
  (if (String.length a <? 2)%nat then "0" ++ a else a).

(** Python's [repr] layout: scientific when the decimal point is more
    than 16 places to the right of the first digit or more than 3 to
    its left, positional (with [.0] after an integer) otherwise. *)
Definition layout (ds : string) (decpt : Z) : string :=
  let nd := Z.of_nat (String.length ds) in
  if (decpt <=? -4) || (16 <? decpt) then
    match ds with
    | String c EmptyString => String c EmptyString ++ "e" ++ exponent_text (decpt - 1)
    | String c rest => String c ("." ++ rest) ++ "e" ++ exponent_text (decpt - 1)
    | EmptyString => EmptyString
    end
  else if decpt <=? 0 then
    "0." ++ PyStr.repeat_char "0" (Z.to_nat (- decpt)) ++ ds
  else if nd <=? decpt then
    ds ++ PyStr.repeat_char "0" (Z.to_nat (decpt - nd)) ++ ".0"
  else
    substring 0 (Z.to_nat decpt) ds ++ "." ++
    substring (Z.to_nat decpt) (Z.to_nat (nd - decpt)) ds.

Definition repr (x : float) : string :=
  match x with
  | NaN => "nan"
  | Inf neg => if neg then "-inf" else "inf"
  | Fin neg m e =>
      (if neg then "-" else EmptyString) ++
      (if m =? 0 then "0.0"
       else let '(ds, decpt) := shortest_digits neg m e in layout ds decpt)
  end.

(** *** [x + y] *)

Definition add (x y : float) : float :=
  match x, y with
  | NaN, _ | _, NaN => NaN
  | Inf a, Inf b => if Bool.eqb a b then Inf a else NaN
  | Inf a, Fin _ _ _ => Inf a
  | Fin _ _ _, Inf b => Inf b
  | Fin a m1 e1, Fin b m2 e2 =>
      let e := Z.min e1 e2 in
      let v1 := (if a then -1 else 1) * m1 * 2 ^ (e1 - e) in
      let v2 := (if b then -1 else 1) * m2 * 2 ^ (e2 - e) in
      let s := v1 + v2 in
      if s =? 0 then Fin (a && b) 0 emin
      else let '(n, d) := binary_ratio (Z.abs s) e in round_ratio (s <? 0) n d
  end.

End PyFloat.

(** ** Cells, Series and DataFrames *)

(** What a cell of a loaded table holds: text, an integer or a float.  A
    missing value is the float NaN, as pandas has it. *)
Inductive cell :=
| CStr (s : string)
| CInt (z : Z)
| CFloat (f : PyFloat.float).

(** [str(x)] *)
Definition py_str (x : cell) : string :=
  match x with
  | CStr s => s
  | CInt z => PyStr.of_Z z
  | CFloat f => PyFloat.repr f
  end.

(** [pd.isna(x)] on a scalar. *)
Definition pd_isna (x : cell) : bool :=
  match x with
  | CFloat PyFloat.NaN => true
  | _ => false
  end.

Definition is_numeric (x : cell) : bool :=
  match x with
  | CStr _ => false
  | _ => true
  end.

Inductive exn :=
| KeyError (label : string)
| TypeError
| OverflowError.

Inductive result (A : Type) :=
| Ok (a : A)
| Raise (e : exn).
Arguments Ok {A} a.
Arguments Raise {A} e.

(** [x + y]: integers add exactly, an integer meeting a float is converted
    first, text concatenates with text, and text with a number is a
    [TypeError]. *)
Definition py_add (x y : cell) : result cell :=
  match x, y with
  | CInt a, CInt b => Ok (CInt (a + b))
  | CInt a, CFloat g =>
      match PyFloat.of_int a with
      | Some f => Ok (CFloat (PyFloat.add f g))
      | None => Raise OverflowError
      end
  | CFloat f, CInt b =>
      match PyFloat.of_int b with
      | Some g => Ok (CFloat (PyFloat.add f g))
      | None => Raise OverflowError
      end
  | CFloat f, CFloat g => Ok (CFloat (PyFloat.add f g))
  | CStr a, CStr b => Ok (CStr (a ++ b))
  | CStr _, _ | _, CStr _ => Raise TypeError
  end.

(** A Series: labels and values in index order.  Labels are unique in
    what the loaders produce (they rename a repeated header). *)
Definition Series := list (string * cell).

Definition index (s : Series) : list string := s.*1.

(** [s.get(k)] *)
Fixpoint series_get (k : string) (s : Series) : option cell :=
  match s with
  | (k', v) :: s' => if String.eqb k' k then Some v else series_get k s'
  | [] => None
  end.

(** [s.get(k, d)] *)
Definition series_get_default (k : string) (d : cell) (s : Series) : cell :=
  default d (series_get k s).

(** [s[k]] *)
Definition series_getitem (k : string) (s : Series) : result cell :=
  match series_get k s with
  | Some v => Ok v
  | None => Raise (KeyError k)
  end.

(** [s[k] = v]: the value under an existing label is replaced in place, a
    new label is appended. *)
Definition series_set (k : string) (v : cell) (s : Series) : Series :=
  match series_get k s with
  | Some _ => map (fun kv => if String.eqb kv.1 k then (kv.1, v) else kv) s
  | None => (s ++ [(k, v)])%list
  end.

Record DataFrame := {
  columns : list string;
  rows : list Series
}.

Definition has_column (k : string) (df : DataFrame) : bool :=
  existsb (String.eqb k) (columns df).

(** [df[k]] *)
Definition df_getitem (k : string) (df : DataFrame) : result (list cell) :=
  if has_column k df
  then Ok (map (series_get_default k (CFloat PyFloat.NaN)) (rows df))
  else Raise (KeyError k).

(** [col.astype(str)] *)
Definition astype_str (col : list cell) : list cell :=
  map (fun v => CStr (py_str v)) col.

(** [df[k] = col], in place. *)
Definition df_setitem (k : string) (col : list cell) (df : DataFrame) : DataFrame :=
  {| columns := if has_column k df then columns df else (columns df ++ [k])%list;
     rows := zip_with (series_set k) col (rows df) |}.

(** [pd.DataFrame(results)] for rows that share one index. *)
Definition frame_of_rows (results : list Series) : DataFrame :=
  {| columns := match results with r :: _ => index r | [] => [] end;
     rows := results |}.

(** ** The helper functions *)

(** [parse_options], lines 7 to 23. *)
Definition normalize_token (normalized : gset string) (t : string) : gset string :=
  if String.eqb t EmptyString then normalized
  else match PyFloat.of_string t with
       | Some num =>
           if PyFloat.is_integer num
           then match PyFloat.to_int num with
                | Some z => normalized ∪ {[ PyStr.of_Z z ]}
                | None => normalized
                end
           else normalized ∪ {[ PyFloat.repr num ]}
       | None => normalized ∪ {[ t ]}
       end.

Definition parse_options (option_str : cell) : gset string :=
  if pd_isna option_str then ∅
  else
    let option_str := PyStr.strip (py_str option_str) in
    let tokens :=
      if PyStr.contains "," option_str
      then map PyStr.strip (PyStr.split "," option_str)
      else [option_str] in
    fold_left normalize_token tokens ∅.

(** [evaluate_answer], lines 26 to 36. *)
Definition evaluate_answer (student_ans correct_ans : cell) (q_type : string)
    (marks : cell) : cell :=
  let student_set := parse_options student_ans in
  let correct_set := parse_options correct_ans in
  if String.eqb q_type "AND" then
    if bool_decide (student_set = correct_set) then marks else CInt 0
  else if String.eqb q_type "OR" then
    if bool_decide (student_set ∩ correct_set ≠ ∅) then marks else CInt 0
  else
    if bool_decide (student_set = correct_set) then marks else CInt 0.

(** ** The world of [evaluate] *)

(** The registry maps a (class, paper) identity to its key table; each
    entry is a table of its own (the caller loads one per file).  Warnings
    are what [st.warning] has been handed, oldest first. *)
Record World := {
  answer_keys : gmap (string * string) DataFrame;
  warnings : list string
}.

(** A computation reads and updates the world and returns or raises; the
    world it leaves is kept in both cases. *)
Definition M (A : Type) : Type := World -> result A * World.

Definition ret {A} (a : A) : M A := fun w => (Ok a, w).

Definition bind {A B} (m : M A) (f : A -> M B) : M B :=
  fun w =>
    match m w with
    | (Ok a, w') => f a w'
    | (Raise e, w') => (Raise e, w')
    end.

Definition lift {A} (r : result A) : M A := fun w => (r, w).

Declare Scope py_scope.
Delimit Scope py_scope with py.
Notation "x <~ m ;; k" := (bind m (fun x => k))
  (at level 100, m at next level, right associativity) : py_scope.
Notation "m ;;; k" := (bind m (fun _ => k))
  (at level 100, right associativity) : py_scope.
Open Scope py_scope.

Definition read_keys : M (gmap (string * string) DataFrame) :=
  fun w => (Ok (answer_keys w), w).

(** The key table under [k] is the object [df] from now on. *)
Definition write_key (k : string * string) (df : DataFrame) : M unit :=
  fun w => (Ok tt, {| answer_keys := <[k := df]> (answer_keys w);
                      warnings := warnings w |}).

(** [st.warning(msg)] *)
Definition st_warning (msg : string) : M unit :=
  fun w => (Ok tt, {| answer_keys := answer_keys w;
                      warnings := (warnings w ++ [msg])%list |}).

(** A [for] loop that carries an accumulator. *)
Fixpoint for_each {A B} (f : A -> B -> M A) (l : list B) (a : A) : M A :=
  match l with
  | [] => ret a
  | b :: l' => a' <~ f a b ;; for_each f l' a'
  end.

(** ** [evaluate], lines 55 to 95 *)

Definition all_question_cols (students_df : DataFrame) : list string :=
  filter (fun c => Is_true (PyStr.startswith "Q_" c)) (columns students_df).

(** Lines 61 and 62. *)
Definition student_identity (student : Series) : string * string :=
  (PyStr.strip (py_str (series_get_default "Class" (CStr EmptyString) student)),
   PyStr.strip (py_str (series_get_default "Paper" (CStr EmptyString) student))).

(** Lines 78 and 83. *)
Definition key_q_no (row : Series) : result string :=
  match series_getitem "QUESTION_NO" row with
  | Ok v => Ok (PyStr.strip (py_str v))
  | Raise e => Raise e
  end.

Definition question_col (q_no : string) : string := "Q_" ++ q_no.

(** Line 81. *)
Definition key_q_type (row : Series) : string :=
  let cell := series_get_default "QUESTION_TYPE" (CStr EmptyString) row in
  let t := PyStr.upper (PyStr.strip (py_str cell)) in
  if String.eqb t EmptyString then "NORMAL" else t.

Definition missing_column_warning (q_col q_no : string) : string :=
  "Missing column '" ++ q_col ++ "' for Question " ++ q_no ++ " in student file.".

(** The body of the loop over the key rows, lines 78 to 89; the
    accumulator is [row_result] and [total_marks]. *)
Definition evaluate_key_row (students_df : DataFrame) (student : Series)
    (acc : Series * cell) (row : Series) : M (Series * cell) :=
  let '(row_result, total_marks) := acc in
  q_no <~ lift (key_q_no row) ;;
  correct_ans <~ lift (series_getitem "ANSWER_KEY" row) ;;
  marks <~ lift (series_getitem "MARKS" row) ;;
  let q_type := key_q_type row in
  let q_col := question_col q_no in
  if has_column q_col students_df then
    student_ans <~ lift (series_getitem q_col student) ;;
    let awarded := evaluate_answer student_ans correct_ans q_type marks in
    let row_result := series_set q_col awarded row_result in
    total_marks <~ lift (py_add total_marks awarded) ;;
    ret (row_result, total_marks)
  else
    st_warning (missing_column_warning q_col q_no) ;;;
    ret (row_result, total_marks).

(** Lines 67 and 68. *)
Definition zero_question_cols (cols : list string) (row_result : Series) : Series :=
  fold_left (fun r q_col => series_set q_col (CInt 0) r) cols row_result.

(** The body of the loop over the students, lines 61 to 92: the result
    row of one student. *)
Definition evaluate_student (students_df : DataFrame) (student : Series) : M Series :=
  let id := student_identity student in
  let row_result := student in
  keys <~ read_keys ;;
  match keys !! id with
  | None =>
      let row_result := zero_question_cols (all_question_cols students_df) row_result in
      ret (series_set "Total_Marks" (CInt 0) row_result)
  | Some ans_df =>
      col <~ lift (df_getitem "QUESTION_NO" ans_df) ;;
      let ans_df := df_setitem "QUESTION_NO" (astype_str col) ans_df in
      write_key id ans_df ;;;
      acc <~ for_each (evaluate_key_row students_df student) (rows ans_df)
               (row_result, CInt 0) ;;
      let '(row_result, total_marks) := acc in
      ret (series_set "Total_Marks" total_marks row_result)
  end.

Definition evaluate_rows (students_df : DataFrame) : list Series -> M (list Series) :=
  fix go (l : list Series) : M (list Series) :=
    match l with
    | [] => ret []
    | student :: l' =>
        row_result <~ evaluate_student students_df student ;;
        results <~ go l' ;;
        ret (row_result :: results)
    end.

Definition evaluate (students_df : DataFrame) : M DataFrame :=
  results <~ evaluate_rows students_df (rows students_df) ;;
  ret (frame_of_rows results).

(** * Loading the files, lines 39 to 52 and 124 to 150 *)

(** An uploaded file: its name, and what [pd.read_csv] and [pd.read_excel]
    make of its bytes, a table or an exception with its text.  The two
    readers belong to pandas; a file carries their outcomes. *)
Record UploadedFile := {
  file_name : string;
  read_csv_outcome : string + DataFrame;
  read_excel_outcome : string + DataFrame
}.

(** What [st.error] and [st.success] put on the page. *)
Inductive notice :=
| StError (msg : string)
| StSuccess (msg : string).

(** [s.endswith(suffix)]: some tail of [s] is [suffix]. *)
Fixpoint endswith (suffix s : string) : bool :=
  String.eqb s suffix
  || match s with
     | String _ s' => endswith suffix s'
     | EmptyString => false
     end.

(** [read_uploaded_file], lines 39 to 52: the table, or [None], and the
    errors reported. *)
Definition read_uploaded_file (file : UploadedFile) : option DataFrame * list notice :=
  let filename := PyStr.lower (file_name file) in
  let outcome :=
    if endswith ".csv" filename then Some (read_csv_outcome file)
    else if endswith ".xls" filename || endswith ".xlsx" filename
         then Some (read_excel_outcome file)
         else None in
  match outcome with
  | Some (inr df) => (Some df, [])
  | Some (inl e) =>
      (None, [StError ("⚠️ Error reading " ++ filename ++ ": " ++ e)])
  | None =>
      (None, [StError ("❌ Unsupported file format for " ++ filename
                       ++ ". Please upload CSV or Excel.")])
  end.

(** Lines 140 and 141: the class and the paper in the name of a key file;
    [None] is the [IndexError] of a [[1]] on a list of one piece. *)
Definition key_class_paper (filename : string) : option (string * string) :=
  cls ← (PyStr.split "C" filename !! 1%nat) ≫= (fun x => PyStr.split "P" x !! 0%nat);
  pap ← (PyStr.split "P" filename !! 1%nat) ≫= (fun x => PyStr.split "." x !! 0%nat);
  Some (cls, pap).

(** The body of the loop over the key files, lines 138 to 147; the
    accumulator is the registry and the notices so far. *)
Definition load_key_file (acc : gmap (string * string) DataFrame * list notice)
    (file : UploadedFile) : gmap (string * string) DataFrame * list notice :=
  let '(keys, log) := acc in
  let filename := file_name file in
  match key_class_paper filename with
  | Some (cls, pap) =>
      match read_uploaded_file file with
      | (Some df, msgs) =>
          (<[(PyStr.strip cls, PyStr.strip pap) := df]> keys,
           (log ++ msgs ++ [StSuccess ("✅ Loaded " ++ filename)])%list)
      | (None, msgs) => (keys, (log ++ msgs)%list)
      end
  | None =>
      (keys, (log ++ [StError ("❌ Error reading " ++ filename
                               ++ ": list index out of range")])%list)
  end.

(** Lines 136 to 147. *)
Definition load_answer_keys (uploaded_keys : list UploadedFile)
  : gmap (string * string) DataFrame * list notice :=
  fold_left load_key_file uploaded_keys (∅, []).

(** What pressing the button leads to, lines 124 to 153: a refusal, a stop
    after the student file could not be read, or an evaluation, which
    returns a table or raises. *)
Inductive run :=
| Refused (log : list notice)
| Stopped (log : list notice)
| Evaluated (log : list notice) (outcome : result DataFrame) (w : World).

Definition evaluate_now (student_file : option UploadedFile)
    (uploaded_keys : list UploadedFile) : run :=
  match student_file with
  | None => Refused [StError "Please upload the student response file first."]
  | Some file =>
      match uploaded_keys with
      | [] => Refused [StError "Please upload all answer key files."]
      | _ :: _ =>
          match read_uploaded_file file with
          | (None, msgs) => Stopped msgs
          | (Some students_df, msgs) =>
              let '(answer_keys, log) := load_answer_keys uploaded_keys in
              let '(outcome, w) :=
                evaluate students_df {| answer_keys := answer_keys; warnings := [] |} in
              Evaluated
                (msgs ++ log ++
                 match outcome with
                 | Ok _ => [StSuccess "✅ Evaluation complete!"]
                 | Raise _ => []
                 end)%list
                outcome w
          end
      end
  end.

(** What a key file contributes to the registry when it loads: its
    trimmed identity and its table. *)
Definition loaded_key (file : UploadedFile) : option ((string * string) * DataFrame) :=
  match key_class_paper (file_name file), (read_uploaded_file file).1 with
  | Some (cls, pap), Some df => Some ((PyStr.strip cls, PyStr.strip pap), df)
  | _, _ => None
  end.

(** A string without a given character. *)
Definition lacks (c : ascii) (s : string) : Prop := PyStr.contains c s = false.

(** * Notions used in the statements *)

(** ** Answer sets *)

(** What [parse_options] adds to the set for one token: nothing for an
    empty token, the canonical numeral for a number, the token itself
    otherwise. *)
Definition token_contribution (t : string) : gset string :=
  normalize_token ∅ t.

(** The two comparisons in the words of the specification: two answer
    sets overlap when some token is in both; they are the same answer when
    they have the same number of tokens and the same tokens. *)
Definition sets_overlap (S C : gset string) : Prop :=
  exists t, t ∈ S /\ t ∈ C.

Definition same_answer_set (S C : gset string) : Prop :=
  size S = size C /\ forall t, t ∈ S <-> t ∈ C.

(** ** Worlds *)

(** The world after more warnings, and after a key table was replaced. *)
Definition add_warnings (msgs : list string) (w : World) : World :=
  {| answer_keys := answer_keys w; warnings := (warnings w ++ msgs)%list |}.

Definition set_key (k : string * string) (df : DataFrame) (w : World) : World :=
  {| answer_keys := <[k := df]> (answer_keys w); warnings := warnings w |}.

(** ** The key table after line 74 *)

(** Line 74 as a whole: the key table with its QUESTION_NO column
    converted to text. *)
Definition coerce_question_no (ans_df : DataFrame) : DataFrame :=
  df_setitem "QUESTION_NO"
    (astype_str (map (series_get_default "QUESTION_NO" (CFloat PyFloat.NaN)) (rows ans_df)))
    ans_df.

(** The key table rows after line 74. *)
Definition coerce_row (row : Series) : Series :=
  series_set "QUESTION_NO"
    (CStr (py_str (series_get_default "QUESTION_NO" (CFloat PyFloat.NaN) row))) row.

(** The question number the loop reads from a key row after line 74 is
    the trimmed text of the cell the file had. *)
Definition raw_q_no (row : Series) : string :=
  PyStr.strip (py_str (series_get_default "QUESTION_NO" (CFloat PyFloat.NaN) row)).

(** The question columns that a key table names, one per key row. *)
Definition key_question_cols (ans_df : DataFrame) : list string :=
  map (fun row => question_col (raw_q_no row)) (rows ans_df).

(** [ans_df'] is [ans_df] with the QUESTION_NO cells turned into text and
    nothing else changed. *)
Definition question_no_as_text (ans_df ans_df' : DataFrame) : Prop :=
  columns ans_df' = columns ans_df
  /\ Forall2 (fun row row' =>
                (forall c, c <> "QUESTION_NO" -> series_get c row' = series_get c row)
                /\ series_get "QUESTION_NO" row'
                   = Some (CStr (py_str (series_get_default "QUESTION_NO"
                                           (CFloat PyFloat.NaN) row))))
       (rows ans_df) (rows ans_df').

(** Each entry of [m'] is the entry of [m], as it was or, for the identity
    of one of the students, with its question numbers converted. *)
Definition key_table_effect (students : list Series)
    (m m' : gmap (string * string) DataFrame) : Prop :=
  forall k,
    m' !! k = m !! k
    \/ exists student ans_df,
        student ∈ students /\ student_identity student = k
        /\ m !! k = Some ans_df /\ has_column "QUESTION_NO" ans_df = true
        /\ m' !! k = Some (coerce_question_no ans_df).

(** ** Key rows and awards *)

(** What a key row leads to, when its cells can be read: an award for a
    question column, or a warning about a column the student table lacks. *)
Inductive outcome :=
| Scored (q_col : string) (awarded : cell)
| Missing (q_col q_no : string).

Definition key_row_outcome (students_df : DataFrame) (student row : Series)
  : result outcome :=
  match key_q_no row with
  | Raise e => Raise e
  | Ok q_no =>
      match series_getitem "ANSWER_KEY" row with
      | Raise e => Raise e
      | Ok correct_ans =>
          match series_getitem "MARKS" row with
          | Raise e => Raise e
          | Ok marks =>
              let q_col := question_col q_no in
              if has_column q_col students_df then
                match series_getitem q_col student with
                | Raise e => Raise e
                | Ok student_ans =>
                    Ok (Scored q_col
                          (evaluate_answer student_ans correct_ans (key_q_type row) marks))
                end
              else Ok (Missing q_col q_no)
          end
      end
  end.

(** The awards among some outcomes, with their columns, in order. *)
Definition awards (outs : list outcome) : list (string * cell) :=
  omap (fun o => match o with Scored c a => Some (c, a) | Missing _ _ => None end) outs.

Definition outcome_warnings (outs : list outcome) : list string :=
  omap (fun o => match o with
                 | Missing c q => Some (missing_column_warning c q)
                 | Scored _ _ => None
                 end) outs.

(** The awards stored into a row one after the other. *)
Definition write_awards (aw : list (string * cell)) (row_result : Series) : Series :=
  fold_left (fun r ca => series_set ca.1 ca.2 r) aw row_result.

(** The sum of some values added to [t] from left to right, as the
    running total is. *)
Fixpoint py_sum_from (t : cell) (l : list cell) : result cell :=
  match l with
  | [] => Ok t
  | a :: l' =>
      match py_add t a with
      | Ok t' => py_sum_from t' l'
      | Raise e => Raise e
      end
  end.

(** [sum(l)] *)
Definition py_sum (l : list cell) : result cell := py_sum_from (CInt 0) l.

(** The awards of a student against some key rows, computed row by row. *)
Definition student_awards (students_df : DataFrame) (student : Series)
    (key_rows : list Series) : list (string * cell) :=
  omap (fun row => match key_row_outcome students_df student row with
                   | Ok (Scored c a) => Some (c, a)
                   | _ => None
                   end) key_rows.

(** The marks that the evaluation of a student row writes into question
    columns, in the order of writing: the awards against the matched key,
    or a 0 for every question column when there is no key. *)
Definition written_awards (students_df : DataFrame) (student : Series) (w : World)
  : list (string * cell) :=
  match answer_keys w !! student_identity student with
  | Some ans_df => student_awards students_df student (rows (coerce_question_no ans_df))
  | None => (fun c => (c, CInt 0)) <$> all_question_cols students_df
  end.

(** A key table that the loop can read and add up: it has a QUESTION_NO
    column, and every row has an answer and an integer for its marks. *)
Definition integer_key (ans_df : DataFrame) : Prop :=
  has_column "QUESTION_NO" ans_df = true
  /\ Forall (fun row => is_Some (series_get "ANSWER_KEY" row)
                        /\ exists z, series_get "MARKS" row = Some (CInt z))
       (rows ans_df).

(** ** Result rows *)

(** Every question column of the student table holds 0 in the row, and so
    does Total_Marks. *)
Definition zero_marks (students_df : DataFrame) (row_result : Series) : Prop :=
  (forall c, c ∈ columns students_df -> PyStr.startswith "Q_" c = true ->
             series_get c row_result = Some (CInt 0))
  /\ series_get "Total_Marks" row_result = Some (CInt 0).

(** The reading of the output description in which the key plays no
    part: every question column of the student table holds a number in
    the result row. *)
Definition every_question_col_awarded (students_df : DataFrame)
    (row_result : Series) : Prop :=
  forall c, c ∈ all_question_cols students_df ->
            exists a, series_get c row_result = Some a /\ is_numeric a = true.

(** * A worked example *)

(** One key, for class 1 paper 1, with integer question numbers: question
    1 is worth 10 marks and wants A and B, question 3 is worth 5 and wants
    C.  Two students; the student table has columns for questions 1 and 2
    only, and the second student sat a paper that has no key. *)
Definition key_example : DataFrame :=
  {| columns := ["QUESTION_NO"; "ANSWER_KEY"; "MARKS"; "QUESTION_TYPE"];
     rows := [ [("QUESTION_NO", CInt 1); ("ANSWER_KEY", CStr "B,A");
                ("MARKS", CInt 10); ("QUESTION_TYPE", CStr "AND")];
               [("QUESTION_NO", CInt 3); ("ANSWER_KEY", CStr "C");
                ("MARKS", CInt 5); ("QUESTION_TYPE", CStr "OR")] ] |}.

Definition student_matched : Series :=
  [("Class", CInt 1); ("Paper", CInt 1); ("Q_1", CStr "A,B"); ("Q_2", CStr "x")].

Definition student_unmatched : Series :=
  [("Class", CInt 1); ("Paper", CInt 9); ("Q_1", CStr "A,B"); ("Q_2", CStr "x")].

Definition students_example : DataFrame :=
  {| columns := ["Class"; "Paper"; "Q_1"; "Q_2"];
     rows := [student_matched; student_unmatched] |}.

Definition world_example : World :=
  {| answer_keys := {[ ("1", "1") := key_example ]}; warnings := [] |}.

(** The same key with question 1 entered twice. *)
Definition key_repeated : DataFrame :=
  {| columns := ["QUESTION_NO"; "ANSWER_KEY"; "MARKS"; "QUESTION_TYPE"];
     rows := [ [("QUESTION_NO", CInt 1); ("ANSWER_KEY", CStr "B,A");
                ("MARKS", CInt 10); ("QUESTION_TYPE", CStr "AND")];
               [("QUESTION_NO", CInt 1); ("ANSWER_KEY", CStr "B,A");
                ("MARKS", CInt 10); ("QUESTION_TYPE", CStr "AND")] ] |}.

Definition world_repeated : World :=
  {| answer_keys := {[ ("1", "1") := key_repeated ]}; warnings := [] |}.

(** * Notions used in the further properties *)

(** The columns of a result row: those of the student table, and
    Total_Marks after them unless it is one of them. *)
Definition result_columns (students_df : DataFrame) : list string :=
  if has_column "Total_Marks" students_df then columns students_df
  else (columns students_df ++ ["Total_Marks"])%list.

(** The integer marks of a key row (0 when the cell is something else),
    and the marks of a whole key. *)
Definition marks_of (row : Series) : Z :=
  match series_get "MARKS" row with
  | Some (CInt z) => z
  | _ => 0
  end.

Definition key_marks_total (ans_df : DataFrame) : Z :=
  foldr (fun row acc => marks_of row + acc) 0 (rows ans_df).

(** The warnings that a key gives rise to for one student: one for each
    key row whose question column the student table lacks, in key order. *)
Definition missing_warnings (students_df ans_df : DataFrame) : list string :=
  omap (fun row =>
          let q_no := raw_q_no row in
          if has_column (question_col q_no) students_df then None
          else Some (missing_column_warning (question_col q_no) q_no))
    (rows ans_df).

(** A string of white space only. *)
Fixpoint all_space (s : string) : bool :=
  match s with
  | String c s' => PyStr.isspace c && all_space s'
  | EmptyString => true
  end.

(** A key whose only row has text for its marks. *)
Definition key_text_marks : DataFrame :=
  {| columns := ["QUESTION_NO"; "ANSWER_KEY"; "MARKS"; "QUESTION_TYPE"];
     rows := [ [("QUESTION_NO", CInt 1); ("ANSWER_KEY", CStr "B,A");
                ("MARKS", CStr "ten"); ("QUESTION_TYPE", CStr "AND")] ] |}.

Definition world_text_marks : World :=
  {| answer_keys := {[ ("1", "1") := key_text_marks ]}; warnings := [] |}.

(** Every character of a string passes a test. *)
Fixpoint all_chars (P : ascii -> bool) (s : string) : bool :=
  match s with
  | String c s' => P c && all_chars P s'
  | EmptyString => true
  end.

(** The characters of [str(n)] for an integer. *)
Definition digit_or_minus (c : ascii) : bool :=
  PyStr.isdigit c || Ascii.eqb c "-".

(** * Properties *)

(** ** The primitives on examples *)

(** [repr(float(s))] for some strings; [None] where [float] raises. *)
Example float_repr_examples :
  map (fun s => PyFloat.repr <$> PyFloat.of_string s)
    ["2"; "2.0"; "1e3"; "0.10"; ".5"; "5."; "1_000"; "-0"; "Infinity"; "-inf"; "NaN";
     "1e400"; "0.1e-3"; "0.00001"; "1e16"; "1e15"; "0.30000000000000004";
     "9007199254740993"; "abc"; "1__0"; "1e"; "+-1"; "0x10"; "1 2"]
  = [Some "2.0"; Some "2.0"; Some "1000.0"; Some "0.1"; Some "0.5"; Some "5.0";
     Some "1000.0"; Some "-0.0"; Some "inf"; Some "-inf"; Some "nan"; Some "inf";
     Some "0.0001"; Some "1e-05"; Some "1e+16"; Some "1000000000000000.0";
     Some "0.30000000000000004"; Some "9007199254740992.0";
     None; None; None; None; None; None].
Proof. vm_compute. reflexivity. Qed.

(** Floating-point addition rounds: 0.1 + 0.2 is not 0.3. *)
Example float_add_rounds :
  (x ← PyFloat.of_string "0.1"; y ← PyFloat.of_string "0.2";
   Some (PyFloat.repr (PyFloat.add x y)))
  = Some "0.30000000000000004".
Proof. vm_compute. reflexivity. Qed.

Example py_add_examples :
  py_add (CInt 0) (CInt 10) = Ok (CInt 10)
  /\ py_add (CInt 0) (CStr "10") = Raise TypeError
  /\ (py_str <$> (x ← PyFloat.of_string "2.5"; Some (CFloat x))) = Some "2.5"
  /\ py_str (CInt (-12)) = "-12".
Proof. split; [|split; [|split]]; vm_compute; reflexivity. Qed.

(** [parse_options] on text, on numbers and on a missing value. *)
Example parse_options_examples :
  parse_options (CStr " a , b ,,a") = {[ "a"; "b" ]}
  /\ parse_options (CStr "1, 1.0 ,01,1e0") = {[ "1" ]}
  /\ parse_options (CStr "2.50,2.5") = {[ "2.5" ]}
  /\ parse_options (CStr "nan") = {[ "nan" ]}
  /\ parse_options (CStr " , ") = ∅
  /\ parse_options (CInt 2) = {[ "2" ]}
  /\ parse_options (CFloat (PyFloat.Fin false (2 ^ 52) (-51))) = {[ "2" ]}
  /\ parse_options (CFloat PyFloat.NaN) = ∅.
Proof.
  split; [|split; [|split; [|split; [|split; [|split; [|split]]]]]];
    vm_compute; reflexivity.
Qed.

(** The scoring examples of the specification. *)
Example evaluate_answer_examples :
  evaluate_answer (CStr "A,B") (CStr "B,A") "AND" (CInt 5) = CInt 5
  /\ evaluate_answer (CStr "A,B") (CStr "A") "AND" (CInt 5) = CInt 0
  /\ evaluate_answer (CStr "A,B") (CStr "B,C") "OR" (CInt 5) = CInt 5
  /\ evaluate_answer (CStr "A") (CStr "B") "OR" (CInt 5) = CInt 0.
Proof. split; [|split; [|split]]; vm_compute; reflexivity. Qed.

(** ** Series *)

Section SeriesFacts.

Implicit Types (k c : string) (v : cell) (s : Series).

Lemma series_get_None k s : series_get k s = None <-> k ∉ index s.
Proof.
  induction s as [|[k' v'] s IH]; simpl.
  - split; [intros _; apply not_elem_of_nil | done].
  - destruct (String.eqb_spec k' k) as [->|Hne].
    + split; [done | intros H; destruct H; left].
    + rewrite IH, not_elem_of_cons.
      split; [intros ?; split; [by intros ->|done] | by intros [_ ?]].
Qed.

Lemma series_get_is_Some k s : is_Some (series_get k s) <-> k ∈ index s.
Proof.
  destruct (series_get k s) eqn:E.
  - split; [intros _ | eauto].
    destruct (decide (k ∈ index s)) as [|Hn]; [done|].
    apply series_get_None in Hn. congruence.
  - apply series_get_None in E. split; [intros [? ?]; done | done].
Qed.

Lemma series_get_replace k k' v s :
  series_get k' (map (fun kv => if String.eqb kv.1 k then (kv.1, v) else kv) s)
  = if String.eqb k k' then (fun _ => v) <$> series_get k' s else series_get k' s.
Proof.
  induction s as [|[k0 v0] s IH]; simpl.
  - by destruct (String.eqb k k').
  - destruct (String.eqb_spec k0 k) as [->|Hne]; simpl.
    + destruct (String.eqb_spec k k') as [->|Hne']; simpl; [done|].
      by rewrite IH.
    + destruct (String.eqb_spec k0 k') as [->|Hne']; simpl.
      * destruct (String.eqb_spec k k') as [->|]; [done | done].
      * by rewrite IH.
Qed.

Lemma series_get_app k s1 s2 :
  series_get k (s1 ++ s2)%list
  = match series_get k s1 with Some v => Some v | None => series_get k s2 end.
Proof.
  induction s1 as [|[k0 v0] s1 IH]; simpl; [done|].
  by destruct (String.eqb k0 k).
Qed.

(** Reading back what was just stored. *)
Lemma series_get_set_eq k v s : series_get k (series_set k v s) = Some v.
Proof.
  unfold series_set. destruct (series_get k s) eqn:E.
  - rewrite series_get_replace, String.eqb_refl, E. done.
  - rewrite series_get_app, E. simpl. by rewrite String.eqb_refl.
Qed.

(** A store leaves the other labels alone. *)
Lemma series_get_set_ne k k' v s :
  k <> k' -> series_get k' (series_set k v s) = series_get k' s.
Proof.
  intros Hne. unfold series_set. destruct (series_get k s) eqn:E.
  - rewrite series_get_replace. by destruct (String.eqb_spec k k').
  - rewrite series_get_app. destruct (series_get k' s); [done|].
    simpl. by destruct (String.eqb_spec k k').
Qed.

Lemma index_set_present k v s :
  k ∈ index s -> index (series_set k v s) = index s.
Proof.
  intros Hin. apply series_get_is_Some in Hin as [v0 E].
  unfold series_set, index. rewrite E.
  rewrite <- list_fmap_compose. apply list_fmap_ext.
  intros i [k0 v0'] _. simpl. by destruct (String.eqb k0 k).
Qed.

Lemma index_set_absent k v s :
  k ∉ index s -> index (series_set k v s) = (index s ++ [k])%list.
Proof.
  intros Hin. apply series_get_None in Hin.
  unfold series_set, index. rewrite Hin. by rewrite fmap_app.
Qed.

Lemma series_replace_absent k v s :
  k ∉ index s ->
  map (fun kv : string * cell => if String.eqb kv.1 k then (kv.1, v) else kv) s = s.
Proof.
  induction s as [|[k0 v0] s IH]; simpl; [done|].
  rewrite not_elem_of_cons. intros [Hne Hni].
  destruct (String.eqb_spec k0 k) as [->|_]; [done|]. by rewrite IH.
Qed.

(** Storing the same value twice is storing it once. *)
Lemma series_set_idemp k v s : series_set k v (series_set k v s) = series_set k v s.
Proof.
  unfold series_set at 1. rewrite series_get_set_eq.
  unfold series_set. destruct (series_get k s) eqn:E.
  - rewrite map_map. apply map_ext. intros [k0 v0]. simpl.
    destruct (String.eqb_spec k0 k) as [->|Hne]; simpl.
    + by rewrite String.eqb_refl.
    + by destruct (String.eqb_spec k0 k).
  - apply series_get_None in E. rewrite map_app. simpl.
    rewrite String.eqb_refl. by rewrite series_replace_absent.
Qed.

Lemma series_get_default_set_eq k d v s :
  series_get_default k d (series_set k v s) = v.
Proof. unfold series_get_default. by rewrite series_get_set_eq. Qed.

Lemma series_getitem_set_ne k k' v s :
  k <> k' -> series_getitem k' (series_set k v s) = series_getitem k' s.
Proof. intros Hne. unfold series_getitem. by rewrite series_get_set_ne. Qed.

End SeriesFacts.

(** ** The normalizer *)

Lemma normalize_token_union (normalized : gset string) (t : string) :
  normalize_token normalized t = normalized ∪ token_contribution t.
Proof.
  unfold token_contribution, normalize_token.
  destruct (String.eqb t EmptyString); [set_solver|].
  destruct (PyFloat.of_string t) as [num|]; [|set_solver].
  destruct (PyFloat.is_integer num); [|set_solver].
  destruct (PyFloat.to_int num); set_solver.
Qed.

Lemma fold_normalize_token (tokens : list string) (normalized : gset string) :
  fold_left normalize_token tokens normalized
  = normalized ∪ ⋃ (token_contribution <$> tokens).
Proof.
  revert normalized. induction tokens as [|t tokens IH]; intros normalized; simpl.
  - set_solver.
  - rewrite IH, normalize_token_union. set_solver.
Qed.

Lemma elem_of_fold_normalize_token (tokens : list string) (x : string) :
  x ∈ fold_left normalize_token tokens ∅
  <-> exists t, t ∈ tokens /\ x ∈ token_contribution t.
Proof.
  rewrite fold_normalize_token, elem_of_union, elem_of_union_list.
  split.
  - intros [H|(X & HX & Hx)]; [set_solver|].
    apply list_elem_of_fmap in HX as (t & -> & Ht). eauto.
  - intros (t & Ht & Hx). right. exists (token_contribution t).
    split; [|done]. apply list_elem_of_fmap. eauto.
Qed.

(** The set of a token list depends on which tokens occur, not on their
    order or on how often they occur. *)
Lemma normalize_tokens_ext (tokens tokens' : list string) :
  (forall t, t ∈ tokens <-> t ∈ tokens') ->
  fold_left normalize_token tokens ∅ = fold_left normalize_token tokens' ∅.
Proof.
  intros Hext. apply set_eq. intros x.
  rewrite !elem_of_fold_normalize_token.
  split; intros (t & Ht & Hx); exists t; split; auto; by apply Hext.
Qed.

(** C4: numeric tokens are canonical, so ["2"], ["2.0"] and [" 2 "] all
    normalize to the set holding the one token ["2"]; text keeps its case,
    so ["Delhi"] and ["delhi"] normalize to different sets. *)
Theorem normalize_numeric_canonical_text_case_sensitive :
  parse_options (CStr "2") = parse_options (CStr "2.0")
  /\ parse_options (CStr "2.0") = parse_options (CStr " 2 ")
  /\ parse_options (CStr "2") = {[ "2" ]}
  /\ parse_options (CStr "Delhi") <> parse_options (CStr "delhi").
Proof.
  split; [|split; [|split]].
  - vm_compute. reflexivity.
  - vm_compute. reflexivity.
  - vm_compute. reflexivity.
  - intros H.
    assert (Hin : "Delhi" ∈ parse_options (CStr "delhi")).
    { rewrite <- H. vm_compute. reflexivity. }
    revert Hin. vm_compute. discriminate.
Qed.

(** C5: normalizing a comma-separated string forgets order and
    repetition: ["1,2"], ["2,1"] and ["1,2,1"] normalize to the same set,
    as do any two token lists in which the same tokens occur. *)
Theorem normalize_order_independent_dedup :
  parse_options (CStr "1,2") = parse_options (CStr "2,1")
  /\ parse_options (CStr "1,2") = parse_options (CStr "1,2,1")
  /\ parse_options (CStr "2,1") = parse_options (CStr "1,2,1")
  /\ (forall tokens tokens' : list string,
        (forall t, t ∈ tokens <-> t ∈ tokens') ->
        fold_left normalize_token tokens ∅ = fold_left normalize_token tokens' ∅).
Proof.
  split; [|split; [|split]].
  - vm_compute. reflexivity.
  - vm_compute. reflexivity.
  - vm_compute. reflexivity.
  - apply normalize_tokens_ext.
Qed.

(** ** The scorer *)

Lemma sets_overlap_iff (S C : gset string) : sets_overlap S C <-> S ∩ C <> ∅.
Proof.
  unfold sets_overlap. split.
  - intros (t & HS & HC) E. assert (t ∈ S ∩ C) as Hin by set_solver.
    rewrite E in Hin. set_solver.
  - intros Hne. apply set_choose_L in Hne as [t Ht]. exists t. set_solver.
Qed.

Lemma same_answer_set_iff (S C : gset string) : same_answer_set S C <-> S = C.
Proof.
  unfold same_answer_set. split.
  - intros [_ H]. by apply set_eq.
  - by intros ->.
Qed.

(** What [evaluate_answer] does for a type other than "OR". *)
Lemma evaluate_answer_not_or (student_ans correct_ans marks : cell) (q_type : string) :
  q_type <> "OR" ->
  evaluate_answer student_ans correct_ans q_type marks
  = if bool_decide (parse_options student_ans = parse_options correct_ans)
    then marks else CInt 0.
Proof.
  intros Hne. unfold evaluate_answer.
  destruct (String.eqb q_type "AND"); [done|].
  by destruct (String.eqb_spec q_type "OR").
Qed.

Lemma upper_not_or (q_type : string) : PyStr.upper q_type <> "OR" -> q_type <> "OR".
Proof. intros H ->. by apply H. Qed.

(** C2: under the type "OR" the award is [marks] itself when the two
    normalized answers share a token, and 0 when they share none. *)
Theorem evaluate_answer_or (student_ans correct_ans marks : cell) :
  (sets_overlap (parse_options student_ans) (parse_options correct_ans) ->
   evaluate_answer student_ans correct_ans "OR" marks = marks)
  /\ (~ sets_overlap (parse_options student_ans) (parse_options correct_ans) ->
      evaluate_answer student_ans correct_ans "OR" marks = CInt 0).
Proof.
  unfold evaluate_answer. simpl.
  split; intros H; rewrite sets_overlap_iff in H.
  - by rewrite bool_decide_eq_true_2.
  - rewrite bool_decide_eq_false_2; [done|]. intros Hne. by apply H.
Qed.

Lemma evaluate_answer_or_witness :
  evaluate_answer (CStr "A,B") (CStr "B,C") "OR" (CInt 5) = CInt 5
  /\ evaluate_answer (CStr "A") (CStr "B") "OR" (CInt 5) = CInt 0.
Proof.
  split.
  - apply (evaluate_answer_or (CStr "A,B") (CStr "B,C") (CInt 5)).
    exists "B". split; vm_compute; reflexivity.
  - apply (evaluate_answer_or (CStr "A") (CStr "B") (CInt 5)).
    intros (t & HS & HC).
    assert (parse_options (CStr "A") = {[ "A" ]}) as EA by (vm_compute; reflexivity).
    assert (parse_options (CStr "B") = {[ "B" ]}) as EB by (vm_compute; reflexivity).
    rewrite EA in HS. rewrite EB in HC.
    apply elem_of_singleton in HS, HC. congruence.
Defined.

(** C3: under every type whose upper-case form is not "OR" ("AND",
    "NORMAL", the empty string, anything else) the award is [marks] when
    the two normalized answers are the same set, and 0 otherwise. *)
Theorem evaluate_answer_equality (student_ans correct_ans marks : cell) (q_type : string) :
  PyStr.upper q_type <> "OR" ->
  (same_answer_set (parse_options student_ans) (parse_options correct_ans) ->
   evaluate_answer student_ans correct_ans q_type marks = marks)
  /\ (~ same_answer_set (parse_options student_ans) (parse_options correct_ans) ->
      evaluate_answer student_ans correct_ans q_type marks = CInt 0).
Proof.
  intros Hq. apply upper_not_or in Hq.
  rewrite evaluate_answer_not_or by done.
  split; intros H; rewrite same_answer_set_iff in H.
  - by rewrite bool_decide_eq_true_2.
  - by rewrite bool_decide_eq_false_2.
Qed.

Lemma evaluate_answer_equality_witness :
  evaluate_answer (CStr "A,B") (CStr "B,A") "and" (CInt 5) = CInt 5
  /\ evaluate_answer (CStr "A,B") (CStr "A") EmptyString (CInt 5) = CInt 0.
Proof.
  split.
  - apply (evaluate_answer_equality (CStr "A,B") (CStr "B,A") (CInt 5) "and").
    + vm_compute. discriminate.
    + apply same_answer_set_iff. vm_compute. reflexivity.
  - apply (evaluate_answer_equality (CStr "A,B") (CStr "A") (CInt 5) EmptyString).
    + vm_compute. discriminate.
    + intros [Hsize _]. revert Hsize. vm_compute. discriminate.
Defined.

(** ** The loops of [evaluate] *)

Lemma add_warnings_nil w : add_warnings [] w = w.
Proof. destruct w. unfold add_warnings. simpl. by rewrite app_nil_r. Qed.

Lemma add_warnings_app msgs1 msgs2 w :
  add_warnings msgs2 (add_warnings msgs1 w) = add_warnings (msgs1 ++ msgs2) w.
Proof. unfold add_warnings. simpl. by rewrite app_assoc. Qed.

Lemma evaluate_key_row_eq students_df student row_result total_marks row w :
  evaluate_key_row students_df student (row_result, total_marks) row w
  = match key_row_outcome students_df student row with
    | Raise e => (Raise e, w)
    | Ok (Missing q_col q_no) =>
        (Ok (row_result, total_marks),
         add_warnings [missing_column_warning q_col q_no] w)
    | Ok (Scored q_col awarded) =>
        match py_add total_marks awarded with
        | Ok t => (Ok (series_set q_col awarded row_result, t), w)
        | Raise e => (Raise e, w)
        end
    end.
Proof.
  unfold evaluate_key_row, key_row_outcome, bind, lift, ret, st_warning.
  destruct (key_q_no row) as [q_no|e]; [|done].
  destruct (series_getitem "ANSWER_KEY" row) as [correct_ans|e]; [|done].
  destruct (series_getitem "MARKS" row) as [marks|e]; [|done].
  destruct (has_column (question_col q_no) students_df); [|done].
  destruct (series_getitem (question_col q_no) student) as [a|e]; [|done].
  by destruct (py_add total_marks _).
Qed.

Lemma for_each_cons {A B} (f : A -> B -> M A) (b : B) (l : list B) (a : A) (w : World) :
  for_each f (b :: l) a w
  = match f a b w with
    | (Ok a', w') => for_each f l a' w'
    | (Raise e, w') => (Raise e, w')
    end.
Proof. reflexivity. Qed.

Lemma for_each_app {A B} (f : A -> B -> M A) (l1 l2 : list B) (a : A) (w : World) :
  for_each f (l1 ++ l2)%list a w
  = match for_each f l1 a w with
    | (Ok a', w') => for_each f l2 a' w'
    | (Raise e, w') => (Raise e, w')
    end.
Proof.
  revert a w. induction l1 as [|b l1 IH]; intros a w; simpl; [done|].
  unfold bind. destruct (f a b w) as [[a'|e] w']; [apply IH | done].
Qed.

(** The loop over the key rows succeeds exactly when every row can be
    read and the awards can be added up; it then leaves the awards written
    into the row, the total, and the warnings of the missing columns. *)
Lemma for_each_key_rows students_df student l row_result total_marks w acc' w' :
  for_each (evaluate_key_row students_df student) l (row_result, total_marks) w
  = (Ok acc', w')
  <-> exists outs,
      Forall2 (fun row o => key_row_outcome students_df student row = Ok o) l outs
      /\ py_sum_from total_marks (awards outs).*2 = Ok acc'.2
      /\ acc'.1 = write_awards (awards outs) row_result
      /\ w' = add_warnings (outcome_warnings outs) w.
Proof.
  revert row_result total_marks w.
  induction l as [|row l IH]; intros rr t w.
  - simpl. unfold ret. split.
    + intros H. injection H as Hacc Hw. subst acc' w'. exists []. simpl.
      rewrite add_warnings_nil. repeat split; constructor.
    + intros (outs & HF & Hsum & Hrr & ->). inversion HF; subst.
      simpl in *. injection Hsum as Ht. rewrite add_warnings_nil.
      destruct acc'; simpl in *; by subst.
  - rewrite for_each_cons, evaluate_key_row_eq.
    destruct (key_row_outcome students_df student row) as [[c a|c q]|e] eqn:Eo.
    + destruct (py_add t a) as [t1|e] eqn:Ea.
      * rewrite IH. split.
        -- intros (outs & HF & Hsum & Hrr & ->). exists (Scored c a :: outs).
           simpl. rewrite Ea. repeat split; try done. by constructor.
        -- intros (outs & HF & Hsum & Hrr & ->).
           inversion HF as [|? o ? outs' Ho HF']; subst.
           rewrite Eo in Ho. injection Ho as <-. simpl in *. rewrite Ea in Hsum.
           exists outs'. done.
      * split; [done|]. intros (outs & HF & Hsum & Hrr & ->).
        inversion HF as [|? o ? outs' Ho HF']; subst.
        rewrite Eo in Ho. injection Ho as <-. simpl in *. by rewrite Ea in Hsum.
    + rewrite IH. split.
      * intros (outs & HF & Hsum & Hrr & ->). exists (Missing c q :: outs).
        simpl. rewrite add_warnings_app. repeat split; try done. by constructor.
      * intros (outs & HF & Hsum & Hrr & ->).
        inversion HF as [|? o ? outs' Ho HF']; subst.
        rewrite Eo in Ho. injection Ho as <-. simpl in *.
        exists outs'. rewrite add_warnings_app. done.
    + split; [done|]. intros (outs & HF & _).
      inversion HF as [|? o ? outs' Ho HF']; subst. by rewrite Eo in Ho.
Qed.

(** The loop never touches the registry, whether it returns or raises. *)
Lemma for_each_key_rows_keys students_df student l acc w :
  answer_keys (for_each (evaluate_key_row students_df student) l acc w).2
  = answer_keys w.
Proof.
  revert acc w. induction l as [|row l IH]; intros [rr t] w; [done|].
  rewrite for_each_cons, evaluate_key_row_eq.
  destruct (key_row_outcome students_df student row) as [[c a|c q]|e]; [| |done].
  - destruct (py_add t a); [by rewrite IH | done].
  - by rewrite IH.
Qed.

(** ** Line 74 *)

Lemma rows_coerce_question_no ans_df :
  rows (coerce_question_no ans_df) = map coerce_row (rows ans_df).
Proof.
  unfold coerce_question_no, df_setitem, astype_str. simpl.
  induction (rows ans_df) as [|r l IH]; simpl; [done|]. by rewrite IH.
Qed.

Lemma columns_coerce_question_no ans_df :
  has_column "QUESTION_NO" ans_df = true ->
  columns (coerce_question_no ans_df) = columns ans_df.
Proof. intros H. unfold coerce_question_no, df_setitem. simpl. by rewrite H. Qed.

Lemma coerce_row_idemp row : coerce_row (coerce_row row) = coerce_row row.
Proof.
  unfold coerce_row at 1.
  assert (series_get_default "QUESTION_NO" (CFloat PyFloat.NaN) (coerce_row row)
          = CStr (py_str (series_get_default "QUESTION_NO" (CFloat PyFloat.NaN) row))) as ->.
  { unfold coerce_row. apply series_get_default_set_eq. }
  simpl. unfold coerce_row. apply series_set_idemp.
Qed.

(** Converting the column a second time changes nothing more. *)
Lemma coerce_question_no_idemp ans_df :
  has_column "QUESTION_NO" ans_df = true ->
  coerce_question_no (coerce_question_no ans_df) = coerce_question_no ans_df.
Proof.
  intros H.
  assert (forall d1 d2 : DataFrame,
             columns d1 = columns d2 -> rows d1 = rows d2 -> d1 = d2) as Hext.
  { intros [c1 r1] [c2 r2]. simpl. by intros -> ->. }
  apply Hext.
  - rewrite columns_coerce_question_no; [done|].
    unfold has_column. rewrite columns_coerce_question_no; done.
  - rewrite !rows_coerce_question_no, map_map. apply map_ext.
    intros r. apply coerce_row_idemp.
Qed.

(** The other columns of a key row are what they were. *)
Lemma series_get_coerce_row c row :
  c <> "QUESTION_NO" -> series_get c (coerce_row row) = series_get c row.
Proof. intros Hne. unfold coerce_row. by apply series_get_set_ne. Qed.

(** A key table whose question numbers are text already, in rows that
    carry the column, is left as it is. *)
Lemma coerce_row_text row s :
  series_get "QUESTION_NO" row = Some (CStr s) ->
  NoDup (index row) ->
  coerce_row row = row.
Proof.
  intros E Hnd. unfold coerce_row, series_get_default. rewrite E. simpl.
  unfold series_set. rewrite E.
  induction row as [|[k v] row IH]; simpl in *; [done|].
  apply NoDup_cons in Hnd as [Hni Hnd].
  destruct (String.eqb_spec k "QUESTION_NO") as [->|Hne].
  - injection E as ->. f_equal. by apply series_replace_absent.
  - f_equal. by apply IH.
Qed.

(** ** One student row *)

Lemma evaluate_student_unmatched students_df student w :
  answer_keys w !! student_identity student = None ->
  evaluate_student students_df student w
  = (Ok (series_set "Total_Marks" (CInt 0)
           (zero_question_cols (all_question_cols students_df) student)), w).
Proof.
  intros E. unfold evaluate_student, bind, read_keys, ret. simpl. by rewrite E.
Qed.

Lemma evaluate_student_matched students_df student w ans_df :
  answer_keys w !! student_identity student = Some ans_df ->
  evaluate_student students_df student w
  = if has_column "QUESTION_NO" ans_df then
      match for_each (evaluate_key_row students_df student)
              (rows (coerce_question_no ans_df)) (student, CInt 0)
              (set_key (student_identity student) (coerce_question_no ans_df) w) with
      | (Ok acc, w') => (Ok (series_set "Total_Marks" acc.2 acc.1), w')
      | (Raise e, w') => (Raise e, w')
      end
    else (Raise (KeyError "QUESTION_NO"), w).
Proof.
  intros E. unfold evaluate_student, bind, read_keys, lift, write_key. simpl.
  rewrite E. unfold df_getitem.
  destruct (has_column "QUESTION_NO" ans_df); [|done].
  fold (coerce_question_no ans_df).
  fold (set_key (student_identity student) (coerce_question_no ans_df) w).
  destruct (for_each _ _ _ _) as [[[rr t]|e] w']; done.
Qed.

(** A matched student row that is evaluated without error: the key table
    has a QUESTION_NO column, every key row could be read, the awards
    could be added up, and the result is the student row with the awards
    and then the total stored into it. *)
Lemma evaluate_student_matched_Ok students_df student w ans_df r w' :
  answer_keys w !! student_identity student = Some ans_df ->
  evaluate_student students_df student w = (Ok r, w')
  <-> has_column "QUESTION_NO" ans_df = true
      /\ exists outs total,
        Forall2 (fun row o => key_row_outcome students_df student row = Ok o)
          (rows (coerce_question_no ans_df)) outs
        /\ py_sum (awards outs).*2 = Ok total
        /\ r = series_set "Total_Marks" total (write_awards (awards outs) student)
        /\ w' = add_warnings (outcome_warnings outs)
                  (set_key (student_identity student) (coerce_question_no ans_df) w).
Proof.
  intros E. rewrite (evaluate_student_matched _ _ _ _ E).
  destruct (has_column "QUESTION_NO" ans_df); [|split; [done | by intros [? _]]].
  destruct (for_each _ _ _ _) as [[acc|e] w1] eqn:Ef.
  - apply for_each_key_rows in Ef as (outs & HF & Hsum & Hrr & ->).
    split.
    + intros H. injection H as <- <-. split; [done|].
      exists outs, acc.2. by rewrite Hrr.
    + intros (_ & outs' & total & HF' & Hsum' & -> & ->).
      assert (outs' = outs) as ->.
      { clear -HF HF'. revert outs' HF'.
        induction HF as [|row o l outs Ho HF IH]; intros outs' HF';
          inversion HF' as [|? o' ? outs'' Ho' HF'']; subst; [done|].
        rewrite Ho in Ho'. injection Ho' as <-. f_equal. by apply IH. }
      unfold py_sum in Hsum'. rewrite Hsum in Hsum'. injection Hsum' as <-.
      by rewrite Hrr.
  - split; [done|]. intros (_ & outs & total & HF & Hsum & _ & _).
    assert (for_each (evaluate_key_row students_df student)
              (rows (coerce_question_no ans_df)) (student, CInt 0)
              (set_key (student_identity student) (coerce_question_no ans_df) w)
            = (Ok (write_awards (awards outs) student, total),
               add_warnings (outcome_warnings outs)
                 (set_key (student_identity student) (coerce_question_no ans_df) w))) as Ef'.
    { apply for_each_key_rows. exists outs. done. }
    rewrite Ef in Ef'. done.
Qed.

(** ** Awards written into a row *)

Lemma question_col_not_total q_no : question_col q_no <> "Total_Marks".
Proof. unfold question_col. simpl. discriminate. Qed.

Lemma startswith_Q_not_total c :
  PyStr.startswith "Q_" c = true -> c <> "Total_Marks".
Proof. intros H ->. vm_compute in H. discriminate. Qed.

Lemma startswith_question_col q_no : PyStr.startswith "Q_" (question_col q_no) = true.
Proof.
  unfold PyStr.startswith, question_col. simpl. by destruct q_no.
Qed.

Lemma series_get_write_awards_notin c aw row_result :
  c ∉ aw.*1 -> series_get c (write_awards aw row_result) = series_get c row_result.
Proof.
  revert row_result. induction aw as [|[c' a] aw IH]; intros rr Hni; simpl; [done|].
  simpl in Hni. apply not_elem_of_cons in Hni as [Hne Hni].
  rewrite IH by done. by apply series_get_set_ne.
Qed.

(** A column that received awards shows one of them. *)
Lemma series_get_write_awards_in c aw row_result :
  c ∈ aw.*1 ->
  exists a, (c, a) ∈ aw /\ series_get c (write_awards aw row_result) = Some a.
Proof.
  revert row_result. induction aw as [|[c' a] aw IH]; intros rr Hin; simpl in *.
  - by apply elem_of_nil in Hin.
  - destruct (decide (c ∈ aw.*1)) as [Hin'|Hni].
    + destruct (IH (series_set c' a rr) Hin') as (a' & Ha' & E).
      exists a'. split; [by right | done].
    + apply elem_of_cons in Hin as [->|Hin]; [|done].
      exists a. split; [by left|].
      rewrite series_get_write_awards_notin by done. apply series_get_set_eq.
Qed.

(** A column that received one award shows that award. *)
Lemma series_get_write_awards_nodup c a aw row_result :
  NoDup aw.*1 -> (c, a) ∈ aw ->
  series_get c (write_awards aw row_result) = Some a.
Proof.
  revert row_result. induction aw as [|[c' a'] aw IH]; intros rr Hnd Hin; simpl in *.
  - by apply elem_of_nil in Hin.
  - apply NoDup_cons in Hnd as [Hni Hnd].
    apply elem_of_cons in Hin as [[= -> ->]|Hin].
    + rewrite series_get_write_awards_notin by done. apply series_get_set_eq.
    + by apply IH.
Qed.

Lemma index_write_awards aw row_result :
  (forall c, c ∈ aw.*1 -> c ∈ index row_result) ->
  index (write_awards aw row_result) = index row_result.
Proof.
  revert row_result. induction aw as [|[c a] aw IH]; intros rr Hsub; simpl; [done|].
  assert (index (series_set c a rr) = index rr) as E.
  { apply index_set_present, Hsub. simpl. by left. }
  rewrite IH; [done|]. intros c' Hc'. rewrite E. apply Hsub. simpl. by right.
Qed.

Lemma zero_question_cols_awards cols row_result :
  zero_question_cols cols row_result
  = write_awards ((fun c => (c, CInt 0)) <$> cols) row_result.
Proof.
  unfold zero_question_cols, write_awards. revert row_result.
  induction cols as [|c cols IH]; intros rr; simpl; [done|]. apply IH.
Qed.

Lemma py_sum_zeros {A} (l : list A) :
  py_sum ((fun _ => CInt 0) <$> l) = Ok (CInt 0).
Proof. unfold py_sum. induction l as [|x l IH]; simpl; [done|]. apply IH. Qed.

(** The running total is a number whenever the additions went through. *)
Lemma py_sum_from_numeric t l total :
  is_numeric t = true -> py_sum_from t l = Ok total ->
  is_numeric total = true /\ Forall (fun a => is_numeric a = true) l.
Proof.
  revert t. induction l as [|a l IH]; intros t Ht Hs; simpl in *.
  - injection Hs as <-. by split.
  - destruct (py_add t a) as [t'|] eqn:Ea; [|done].
    assert (is_numeric a = true /\ is_numeric t' = true) as [Ha Ht'].
    { destruct t, a; simpl in *; try done.
      - by injection Ea as <-.
      - destruct (PyFloat.of_int z); [|done]. by injection Ea as <-.
      - destruct (PyFloat.of_int z); [|done]. by injection Ea as <-.
      - by injection Ea as <-. }
    destruct (IH t' Ht' Hs) as [? ?]. split; [done | by constructor].
Qed.

(** ** C1: students without a key *)

Lemma elem_of_all_question_cols students_df c :
  c ∈ all_question_cols students_df
  <-> c ∈ columns students_df /\ PyStr.startswith "Q_" c = true.
Proof.
  unfold all_question_cols. rewrite list_elem_of_filter.
  rewrite Is_true_true. tauto.
Qed.

Lemma zero_marks_unmatched students_df student :
  zero_marks students_df
    (series_set "Total_Marks" (CInt 0)
       (zero_question_cols (all_question_cols students_df) student)).
Proof.
  split; [|apply series_get_set_eq].
  intros c Hc Hq.
  rewrite series_get_set_ne by (apply not_eq_sym; by apply startswith_Q_not_total).
  rewrite zero_question_cols_awards.
  destruct (series_get_write_awards_in c
              ((fun c => (c, CInt 0)) <$> all_question_cols students_df) student)
    as (a & Ha & E).
  { rewrite <- list_fmap_compose. simpl. rewrite list_fmap_id.
    by apply elem_of_all_question_cols. }
  apply list_elem_of_fmap in Ha as (c' & [= -> ->] & _). done.
Qed.

(** What [evaluate_student] leaves in the registry. *)
Lemma evaluate_student_keys students_df student w :
  answer_keys (evaluate_student students_df student w).2
  = match answer_keys w !! student_identity student with
    | Some ans_df =>
        if has_column "QUESTION_NO" ans_df
        then <[student_identity student := coerce_question_no ans_df]> (answer_keys w)
        else answer_keys w
    | None => answer_keys w
    end.
Proof.
  destruct (answer_keys w !! student_identity student) as [ans_df|] eqn:E.
  - rewrite (evaluate_student_matched _ _ _ _ E).
    destruct (has_column "QUESTION_NO" ans_df); [|done].
    pose proof (for_each_key_rows_keys students_df student
                  (rows (coerce_question_no ans_df)) (student, CInt 0)
                  (set_key (student_identity student) (coerce_question_no ans_df) w)) as Hk.
    destruct (for_each _ _ _ _) as [[acc|e] w1]; simpl in *; by rewrite Hk.
  - by rewrite evaluate_student_unmatched.
Qed.

(** An identity without a key stays without one. *)
Lemma evaluate_student_keys_None students_df student w k :
  answer_keys w !! k = None ->
  answer_keys (evaluate_student students_df student w).2 !! k = None.
Proof.
  intros Hk. rewrite evaluate_student_keys.
  destruct (answer_keys w !! student_identity student) as [ans_df|] eqn:E; [|done].
  destruct (has_column "QUESTION_NO" ans_df); [|done].
  rewrite lookup_insert_ne; [done|]. intros Heq. rewrite Heq in E. congruence.
Qed.

Lemma evaluate_rows_cons students_df student l w :
  evaluate_rows students_df (student :: l) w
  = match evaluate_student students_df student w with
    | (Ok row_result, w1) =>
        match evaluate_rows students_df l w1 with
        | (Ok results, w2) => (Ok (row_result :: results), w2)
        | (Raise e, w2) => (Raise e, w2)
        end
    | (Raise e, w1) => (Raise e, w1)
    end.
Proof.
  simpl. unfold bind, ret.
  destruct (evaluate_student students_df student w) as [[r|e] w1]; [|done].
  by destruct (evaluate_rows students_df l w1) as [[rs|e] w2].
Qed.

(** The rows of the result, one by one: each is what [evaluate_student]
    returns for the student row at the same place, in a world that has
    a key for the same identities as at the start. *)
Lemma evaluate_rows_lookup students_df l w results w' i student :
  evaluate_rows students_df l w = (Ok results, w') ->
  l !! i = Some student ->
  exists wi wi' row_result,
    evaluate_student students_df student wi = (Ok row_result, wi')
    /\ results !! i = Some row_result
    /\ (forall k, answer_keys w !! k = None -> answer_keys wi !! k = None).
Proof.
  revert w results i. induction l as [|s l IH]; intros w results i Hev Hi.
  - by rewrite lookup_nil in Hi.
  - rewrite evaluate_rows_cons in Hev.
    destruct (evaluate_student students_df s w) as [[r|e] w1] eqn:Es; [|done].
    destruct (evaluate_rows students_df l w1) as [[rs|e] w2] eqn:Er; [|done].
    injection Hev as <- <-.
    destruct i as [|i]; simpl in Hi.
    + injection Hi as ->. exists w, w1, r. done.
    + destruct (IH w1 rs i Er Hi) as (wi & wi' & rr & Hs & Hl & Hk).
      exists wi, wi', rr. repeat split; [done | done |].
      intros k Hnone. apply Hk.
      pose proof (evaluate_student_keys_None students_df s w k Hnone) as Hn.
      by rewrite Es in Hn.
Qed.

(** C1: a student row whose trimmed (Class, Paper) identity has no key in
    the registry is evaluated without error, whatever its answers are: its
    result row holds 0 in every question column and in Total_Marks, and
    the world is left as it was.  The same holds of its row in the table
    that [evaluate] returns. *)
Theorem unmatched_student_scores_zero (students_df : DataFrame) (student : Series)
    (w : World) :
  answer_keys w !! student_identity student = None ->
  (exists row_result,
      evaluate_student students_df student w = (Ok row_result, w)
      /\ zero_marks students_df row_result)
  /\ (forall i final_df w',
         rows students_df !! i = Some student ->
         evaluate students_df w = (Ok final_df, w') ->
         exists row_result,
           rows final_df !! i = Some row_result /\ zero_marks students_df row_result).
Proof.
  intros Hnone. split.
  - eexists. split; [by apply evaluate_student_unmatched|].
    apply zero_marks_unmatched.
  - intros i final_df w' Hi Hev. unfold evaluate, bind, ret in Hev.
    destruct (evaluate_rows students_df (rows students_df) w) as [[rs|e] w2] eqn:Er;
      [|done].
    injection Hev as <- <-. simpl.
    destruct (evaluate_rows_lookup _ _ _ _ _ _ _ Er Hi) as (wi & wi' & r & Hs & Hl & Hk).
    rewrite evaluate_student_unmatched in Hs by (by apply Hk).
    injection Hs as <- _. eexists. split; [exact Hl|]. apply zero_marks_unmatched.
Qed.

(** The example, evaluated. *)
Lemma evaluate_example :
  (evaluate students_example world_example).1
  = Ok {| columns := ["Class"; "Paper"; "Q_1"; "Q_2"; "Total_Marks"];
          rows := [ [("Class", CInt 1); ("Paper", CInt 1); ("Q_1", CInt 10);
                     ("Q_2", CStr "x"); ("Total_Marks", CInt 10)];
                    [("Class", CInt 1); ("Paper", CInt 9); ("Q_1", CInt 0);
                     ("Q_2", CInt 0); ("Total_Marks", CInt 0)] ] |}
  /\ warnings (evaluate students_example world_example).2
     = ["Missing column 'Q_3' for Question 3 in student file."].
Proof. split; vm_compute; reflexivity. Qed.

Lemma unmatched_student_scores_zero_witness :
  exists row_result,
    evaluate_student students_example student_unmatched world_example
    = (Ok row_result, world_example)
    /\ zero_marks students_example row_result.
Proof.
  refine (proj1 (unmatched_student_scores_zero students_example student_unmatched
                   world_example _)).
  vm_compute. reflexivity.
Defined.

(** ** Outcomes of key rows *)

Lemma has_column_true c df : has_column c df = true <-> c ∈ columns df.
Proof.
  unfold has_column. rewrite existsb_exists. split.
  - intros (c' & Hin & Heq). apply String.eqb_eq in Heq as ->.
    by apply list_elem_of_In.
  - intros Hin. exists c. split; [by apply list_elem_of_In | apply String.eqb_refl].
Qed.

Lemma has_column_false c df : has_column c df = false <-> c ∉ columns df.
Proof.
  rewrite <- has_column_true. destruct (has_column c df); split; done.
Qed.

Lemma key_q_no_coerce_row row : key_q_no (coerce_row row) = Ok (raw_q_no row).
Proof.
  unfold key_q_no, series_getitem, coerce_row. by rewrite series_get_set_eq.
Qed.

Lemma outcome_Scored_inv students_df student row c a :
  key_row_outcome students_df student row = Ok (Scored c a) ->
  exists q_no student_ans correct_ans marks,
    key_q_no row = Ok q_no /\ c = question_col q_no
    /\ has_column c students_df = true
    /\ series_getitem c student = Ok student_ans
    /\ series_getitem "ANSWER_KEY" row = Ok correct_ans
    /\ series_getitem "MARKS" row = Ok marks
    /\ a = evaluate_answer student_ans correct_ans (key_q_type row) marks.
Proof.
  unfold key_row_outcome.
  destruct (key_q_no row) as [q_no|]; [|done].
  destruct (series_getitem "ANSWER_KEY" row) as [correct_ans|]; [|done].
  destruct (series_getitem "MARKS" row) as [marks|]; [|done].
  destruct (has_column (question_col q_no) students_df) eqn:Hc; [|done].
  destruct (series_getitem (question_col q_no) student) as [sa|] eqn:Es; [|done].
  intros [= <- <-]. exists q_no, sa, correct_ans, marks. done.
Qed.

Lemma outcome_Missing_inv students_df student row c q_no :
  key_row_outcome students_df student row = Ok (Missing c q_no) ->
  key_q_no row = Ok q_no /\ c = question_col q_no
  /\ has_column c students_df = false.
Proof.
  unfold key_row_outcome.
  destruct (key_q_no row) as [q|]; [|done].
  destruct (series_getitem "ANSWER_KEY" row) as [correct_ans|]; [|done].
  destruct (series_getitem "MARKS" row) as [marks|]; [|done].
  destruct (has_column (question_col q) students_df) eqn:Hc.
  - by destruct (series_getitem (question_col q) student).
  - by intros [= <- <-].
Qed.

(** A readable key row whose column the student table lacks. *)
Lemma outcome_of_missing students_df student row q_no o :
  key_q_no row = Ok q_no ->
  has_column (question_col q_no) students_df = false ->
  key_row_outcome students_df student row = Ok o ->
  o = Missing (question_col q_no) q_no.
Proof.
  intros Hq Hc Ho. destruct o as [c a|c q].
  - apply outcome_Scored_inv in Ho as (q & ? & ? & ? & Hq' & -> & Hc' & _).
    rewrite Hq in Hq'. injection Hq' as <-. congruence.
  - apply outcome_Missing_inv in Ho as (Hq' & -> & _).
    rewrite Hq in Hq'. by injection Hq' as <-.
Qed.

(** A readable key row whose column the student table has. *)
Lemma outcome_of_present students_df student row q_no o :
  key_q_no row = Ok q_no ->
  has_column (question_col q_no) students_df = true ->
  key_row_outcome students_df student row = Ok o ->
  exists a, o = Scored (question_col q_no) a.
Proof.
  intros Hq Hc Ho. destruct o as [c a|c q].
  - apply outcome_Scored_inv in Ho as (q & ? & ? & ? & Hq' & -> & _).
    rewrite Hq in Hq'. injection Hq' as <-. by exists a.
  - apply outcome_Missing_inv in Ho as (Hq' & -> & Hc').
    rewrite Hq in Hq'. injection Hq' as <-. congruence.
Qed.

Lemma awards_student_awards students_df student l outs :
  Forall2 (fun row o => key_row_outcome students_df student row = Ok o) l outs ->
  awards outs = student_awards students_df student l.
Proof.
  induction 1 as [|row o l outs Ho HF IH]; simpl; [done|].
  unfold awards, student_awards in *. simpl. rewrite Ho, IH. by destruct o.
Qed.

Lemma elem_of_awards students_df student l outs c a :
  Forall2 (fun row o => key_row_outcome students_df student row = Ok o) l outs ->
  (c, a) ∈ awards outs ->
  exists row, row ∈ l /\ key_row_outcome students_df student row = Ok (Scored c a).
Proof.
  induction 1 as [|row o l outs Ho HF IH]; unfold awards; simpl.
  - intros H. by apply elem_of_nil in H.
  - destruct o as [c' a'|c' q']; simpl.
    + intros [[= -> ->]|Hin]%elem_of_cons.
      * exists row. split; [by left | done].
      * destruct (IH Hin) as (row' & ? & ?). exists row'. split; [by right | done].
    + intros Hin. destruct (IH Hin) as (row' & ? & ?).
      exists row'. split; [by right | done].
Qed.

Lemma outcome_of_row students_df student l outs row :
  Forall2 (fun row o => key_row_outcome students_df student row = Ok o) l outs ->
  row ∈ l ->
  exists o, o ∈ outs /\ key_row_outcome students_df student row = Ok o.
Proof.
  induction 1 as [|row' o l outs Ho HF IH].
  - intros H. by apply elem_of_nil in H.
  - intros [->|Hin]%elem_of_cons.
    + exists o. split; [by left | done].
    + destruct (IH Hin) as (o' & ? & ?). exists o'. split; [by right | done].
Qed.

Lemma elem_of_awards_Scored outs c a : Scored c a ∈ outs -> (c, a) ∈ awards outs.
Proof.
  intros Hin. unfold awards. apply list_elem_of_omap. exists (Scored c a). done.
Qed.

(** Every award is for a column of the student table that the key names. *)
Lemma awards_columns students_df student ans_df outs c :
  Forall2 (fun row o => key_row_outcome students_df student row = Ok o)
    (rows (coerce_question_no ans_df)) outs ->
  c ∈ (awards outs).*1 ->
  c ∈ key_question_cols ans_df /\ c ∈ columns students_df.
Proof.
  intros HF Hin. apply list_elem_of_fmap in Hin as ([c' a] & -> & Hin). simpl.
  destruct (elem_of_awards _ _ _ _ _ _ HF Hin) as (row & Hrow & Ho).
  apply outcome_Scored_inv in Ho as (q & ? & ? & ? & Hq & -> & Hc & _).
  split; [|by apply has_column_true].
  rewrite rows_coerce_question_no in Hrow.
  apply list_elem_of_fmap in Hrow as (raw & -> & Hraw).
  rewrite key_q_no_coerce_row in Hq. injection Hq as <-.
  unfold key_question_cols. apply list_elem_of_fmap. exists raw. done.
Qed.

(** ** Evaluations that return *)

Lemma evaluate_answer_cases student_ans correct_ans q_type marks :
  evaluate_answer student_ans correct_ans q_type marks = marks
  \/ evaluate_answer student_ans correct_ans q_type marks = CInt 0.
Proof.
  unfold evaluate_answer.
  destruct (String.eqb q_type "AND"); [|destruct (String.eqb q_type "OR")];
    destruct (bool_decide _); auto.
Qed.

Lemma py_sum_from_integers t (aw : list (string * cell)) :
  Forall (fun ca => exists z, ca.2 = CInt z) aw ->
  exists total, py_sum_from (CInt t) aw.*2 = Ok (CInt total).
Proof.
  intros H. revert t. induction H as [|[c a] aw [z Hz] _ IH]; intros t; simpl in *.
  - by exists t.
  - subst a. simpl. apply IH.
Qed.

(** A student row with a matching key is evaluated without error when the
    key can be read and has integer marks, and the student row has the
    columns of the student table. *)
Lemma evaluate_student_returns students_df student w ans_df :
  answer_keys w !! student_identity student = Some ans_df ->
  integer_key ans_df ->
  index student = columns students_df ->
  exists row_result w', evaluate_student students_df student w = (Ok row_result, w').
Proof.
  intros E [Hq Hrows] Hidx.
  assert (exists outs,
             Forall2 (fun row o => key_row_outcome students_df student row = Ok o)
               (rows (coerce_question_no ans_df)) outs
             /\ Forall (fun ca => exists z, ca.2 = CInt z) (awards outs))
    as (outs & HF & Hint).
  { rewrite rows_coerce_question_no.
    induction Hrows as [|row l [[ans Hans] [z Hz]] _ (outs & HF & Hint)]; simpl.
    - exists []. split; constructor.
    - assert (exists o, key_row_outcome students_df student (coerce_row row) = Ok o
                        /\ Forall (fun ca => exists z, ca.2 = CInt z) (awards [o]))
        as (o & Ho & Hoi).
      { unfold key_row_outcome. rewrite key_q_no_coerce_row.
        unfold series_getitem at 1 2.
        rewrite !series_get_coerce_row by discriminate. rewrite Hans, Hz.
        destruct (has_column (question_col (raw_q_no row)) students_df) eqn:Hc.
        - apply has_column_true in Hc. rewrite <- Hidx in Hc.
          apply series_get_is_Some in Hc as [sa Hsa].
          unfold series_getitem. rewrite Hsa. eexists. split; [done|].
          unfold awards. simpl. constructor; [|constructor]. simpl.
          destruct (evaluate_answer_cases sa ans (key_q_type (coerce_row row)) (CInt z))
            as [-> | ->]; eauto.
        - eexists. split; [done|]. constructor. }
      exists (o :: outs). split; [by constructor|].
      change (o :: outs) with ([o] ++ outs)%list.
      unfold awards in *. rewrite omap_app. by apply Forall_app. }
  destruct (py_sum_from_integers 0 _ Hint) as (total & Hsum).
  eexists _, _. apply evaluate_student_matched_Ok with (ans_df := ans_df); [done|].
  split; [done|]. exists outs, (CInt total). done.
Qed.

(** ** C6: the total *)

(** C6: when a student row is evaluated, its Total_Marks is the sum, from
    0 and in key order, of the marks written into its question columns,
    and the row is the student row with those marks and then the total
    stored into it.  When no column is written twice, each of the marks
    is what its column shows in the result. *)
Theorem total_marks_is_sum_of_awards (students_df : DataFrame) (student : Series)
    (w w' : World) (row_result : Series) :
  evaluate_student students_df student w = (Ok row_result, w') ->
  exists total,
    series_get "Total_Marks" row_result = Some total
    /\ py_sum (written_awards students_df student w).*2 = Ok total
    /\ row_result
       = series_set "Total_Marks" total
           (write_awards (written_awards students_df student w) student)
    /\ (NoDup (written_awards students_df student w).*1 ->
        forall c a, (c, a) ∈ written_awards students_df student w ->
                    series_get c row_result = Some a).
Proof.
  intros Hev. unfold written_awards.
  destruct (answer_keys w !! student_identity student) as [ans_df|] eqn:E.
  - destruct (proj1 (evaluate_student_matched_Ok _ _ _ _ _ _ E) Hev)
      as (_ & outs & total & HF & Hsum & -> & _).
    rewrite <- (awards_student_awards _ _ _ _ HF).
    exists total. split; [apply series_get_set_eq|].
    split; [done|]. split; [done|].
    intros Hnd c a Hin.
    assert (c <> "Total_Marks") as Hne.
    { destruct (elem_of_awards _ _ _ _ _ _ HF Hin) as (row & _ & Ho).
      apply outcome_Scored_inv in Ho as (q & ? & ? & ? & _ & -> & _).
      apply question_col_not_total. }
    rewrite series_get_set_ne by done.
    by apply series_get_write_awards_nodup.
  - rewrite evaluate_student_unmatched in Hev by done. injection Hev as <- _.
    exists (CInt 0). split; [apply series_get_set_eq|].
    split.
    { rewrite <- list_fmap_compose. apply py_sum_zeros. }
    split; [by rewrite zero_question_cols_awards|].
    intros Hnd c a Hin.
    assert (c <> "Total_Marks") as Hne.
    { apply list_elem_of_fmap in Hin as (c' & [= -> ->] & Hc').
      apply elem_of_all_question_cols in Hc' as [_ Hq].
      by apply startswith_Q_not_total. }
    rewrite series_get_set_ne by done.
    rewrite zero_question_cols_awards.
    by apply series_get_write_awards_nodup.
Qed.

Lemma total_marks_is_sum_of_awards_witness :
  exists total,
    series_get "Total_Marks"
      [("Class", CInt 1); ("Paper", CInt 1); ("Q_1", CInt 10); ("Q_2", CStr "x");
       ("Total_Marks", CInt 10)] = Some total
    /\ py_sum (written_awards students_example student_matched world_example).*2
       = Ok total
    /\ [("Class", CInt 1); ("Paper", CInt 1); ("Q_1", CInt 10); ("Q_2", CStr "x");
        ("Total_Marks", CInt 10)]
       = series_set "Total_Marks" total
           (write_awards (written_awards students_example student_matched world_example)
              student_matched)
    /\ (NoDup (written_awards students_example student_matched world_example).*1 ->
        forall c a,
          (c, a) ∈ written_awards students_example student_matched world_example ->
          series_get c
            [("Class", CInt 1); ("Paper", CInt 1); ("Q_1", CInt 10); ("Q_2", CStr "x");
             ("Total_Marks", CInt 10)] = Some a).
Proof.
  refine (total_marks_is_sum_of_awards students_example student_matched world_example
            (evaluate_student students_example student_matched world_example).2 _ _).
  vm_compute. reflexivity.
Defined.

(** With a question entered twice in the key, both awards are added to the
    total while the column shows one of them. *)
Lemma repeated_question_counts_twice :
  (evaluate_student students_example student_matched world_repeated).1
  = Ok [("Class", CInt 1); ("Paper", CInt 1); ("Q_1", CInt 10); ("Q_2", CStr "x");
        ("Total_Marks", CInt 20)]
  /\ written_awards students_example student_matched world_repeated
     = [("Q_1", CInt 10); ("Q_1", CInt 10)].
Proof. split; vm_compute; reflexivity. Qed.

(** ** C7: a question column that the student table lacks *)

Lemma awards_app outs1 outs2 : awards (outs1 ++ outs2) = (awards outs1 ++ awards outs2)%list.
Proof. unfold awards. apply omap_app. Qed.

Lemma outcome_warnings_app outs1 outs2 :
  outcome_warnings (outs1 ++ outs2)
  = (outcome_warnings outs1 ++ outcome_warnings outs2)%list.
Proof. unfold outcome_warnings. apply omap_app. Qed.

(** Whether and with what the loop over the key rows returns does not
    depend on the world it starts in. *)
Lemma for_each_key_rows_result students_df student l acc w1 w2 :
  (for_each (evaluate_key_row students_df student) l acc w1).1
  = (for_each (evaluate_key_row students_df student) l acc w2).1.
Proof.
  revert acc w1 w2. induction l as [|row l IH]; intros [rr t] w1 w2; [done|].
  rewrite !for_each_cons, !evaluate_key_row_eq.
  destruct (key_row_outcome students_df student row) as [[c a|c q]|e]; [| |done].
  - destruct (py_add t a); [apply IH | done].
  - apply IH.
Qed.

(** C7: take a key row of the matched table that can be read and whose
    question column the student table lacks.  Its step in the loop reports
    the warning, leaves the result row and the running total as they are,
    and goes on.  The loop over all key rows returns or raises exactly as
    the loop over the other key rows does, with the same awards and the
    same total.  And when the evaluation of the student row returns, the
    result row has no such column, the warning is among those reported,
    and the row is what the other key rows produce. *)
Theorem missing_question_column (students_df : DataFrame) (student : Series)
    (w : World) (ans_df : DataFrame) (pre post : list Series) (row : Series)
    (q_no : string) (correct_ans marks : cell) :
  answer_keys w !! student_identity student = Some ans_df ->
  rows (coerce_question_no ans_df) = (pre ++ row :: post)%list ->
  key_q_no row = Ok q_no ->
  series_getitem "ANSWER_KEY" row = Ok correct_ans ->
  series_getitem "MARKS" row = Ok marks ->
  has_column (question_col q_no) students_df = false ->
  index student = columns students_df ->
  (forall acc w1,
      evaluate_key_row students_df student acc row w1
      = (Ok acc, add_warnings [missing_column_warning (question_col q_no) q_no] w1))
  /\ (forall acc w1,
         (for_each (evaluate_key_row students_df student) (pre ++ row :: post) acc w1).1
         = (for_each (evaluate_key_row students_df student) (pre ++ post) acc w1).1)
  /\ (forall row_result w',
         evaluate_student students_df student w = (Ok row_result, w') ->
         series_get (question_col q_no) row_result = None
         /\ missing_column_warning (question_col q_no) q_no ∈ warnings w'
         /\ exists acc w'',
             for_each (evaluate_key_row students_df student) (pre ++ post)
               (student, CInt 0) w = (Ok acc, w'')
             /\ row_result = series_set "Total_Marks" acc.2 acc.1).
Proof.
  intros E Hrows Hq Hans Hmarks Hc Hidx.
  assert (key_row_outcome students_df student row
          = Ok (Missing (question_col q_no) q_no)) as Ho.
  { unfold key_row_outcome. by rewrite Hq, Hans, Hmarks, Hc. }
  assert (forall acc w1,
             evaluate_key_row students_df student acc row w1
             = (Ok acc, add_warnings
                          [missing_column_warning (question_col q_no) q_no] w1)) as Hstep.
  { intros [rr t] w1. by rewrite evaluate_key_row_eq, Ho. }
  split; [done|]. split.
  { intros acc w1. rewrite !for_each_app.
    destruct (for_each _ pre acc w1) as [[acc1|e] w2]; [|done].
    rewrite for_each_cons, Hstep. apply for_each_key_rows_result. }
  intros row_result w' Hev.
  destruct (proj1 (evaluate_student_matched_Ok _ _ _ _ _ _ E) Hev)
    as (_ & outs & total & HF & Hsum & -> & ->).
  rewrite Hrows in HF.
  apply Forall2_app_inv_l in HF as (outs1 & outs' & HF1 & HF' & ->).
  apply Forall2_cons_inv_l in HF' as (o & outs2 & Ho' & HF2 & ->).
  rewrite Ho in Ho'. injection Ho' as <-.
  assert (awards (outs1 ++ Missing (question_col q_no) q_no :: outs2)
          = awards (outs1 ++ outs2)) as Eaw.
  { by rewrite !awards_app. }
  assert (Forall2 (fun row o => key_row_outcome students_df student row = Ok o)
            (pre ++ post) (outs1 ++ outs2)) as HF12 by (by apply Forall2_app).
  split; [|split].
  - rewrite series_get_set_ne by (apply not_eq_sym, question_col_not_total).
    rewrite series_get_write_awards_notin.
    + apply series_get_None. rewrite Hidx. by apply has_column_false.
    + intros Hin. rewrite Eaw in Hin.
      apply list_elem_of_fmap in Hin as ([c a] & Hca & Hin). simpl in Hca. subst c.
      destruct (elem_of_awards _ _ _ _ _ _ HF12 Hin) as (row' & _ & Ho').
      apply outcome_Scored_inv in Ho' as (? & ? & ? & ? & _ & _ & Hc' & _).
      congruence.
  - simpl. rewrite outcome_warnings_app. simpl.
    rewrite !elem_of_app, elem_of_cons. right. right. by left.
  - exists (write_awards (awards (outs1 ++ outs2)) student, total).
    exists (add_warnings (outcome_warnings (outs1 ++ outs2)) w).
    split.
    + apply for_each_key_rows. exists (outs1 ++ outs2)%list. simpl.
      split; [done|]. split; [by rewrite <- Eaw | done].
    + simpl. by rewrite Eaw.
Qed.

Lemma missing_question_column_witness :
  series_get "Q_3"
    [("Class", CInt 1); ("Paper", CInt 1); ("Q_1", CInt 10); ("Q_2", CStr "x");
     ("Total_Marks", CInt 10)] = None
  /\ "Missing column 'Q_3' for Question 3 in student file."
     ∈ warnings (evaluate_student students_example student_matched world_example).2.
Proof.
  pose proof (missing_question_column students_example student_matched world_example
                key_example
                [ [("QUESTION_NO", CStr "1"); ("ANSWER_KEY", CStr "B,A");
                   ("MARKS", CInt 10); ("QUESTION_TYPE", CStr "AND")] ]
                []
                [("QUESTION_NO", CStr "3"); ("ANSWER_KEY", CStr "C");
                 ("MARKS", CInt 5); ("QUESTION_TYPE", CStr "OR")]
                "3" (CStr "C") (CInt 5)) as H.
  destruct H as (_ & _ & H).
  - vm_compute. reflexivity.
  - vm_compute. reflexivity.
  - vm_compute. reflexivity.
  - vm_compute. reflexivity.
  - vm_compute. reflexivity.
  - vm_compute. reflexivity.
  - vm_compute. reflexivity.
  - destruct (H [("Class", CInt 1); ("Paper", CInt 1); ("Q_1", CInt 10);
                 ("Q_2", CStr "x"); ("Total_Marks", CInt 10)]
                (evaluate_student students_example student_matched world_example).2)
      as (H1 & H2 & _).
    + vm_compute. reflexivity.
    + split; [exact H1 | exact H2].
Defined.

(** ** C8 and C10: what the result row holds *)

(** Against C8 as stated: the key of the example has no question 2, and
    the matched student keeps the answer to it, as text, in the result
    row. *)
Lemma question_col_without_key_row_keeps_answer :
  answer_keys world_example !! student_identity student_matched = Some key_example
  /\ evaluate_student students_example student_matched world_example
     = (Ok [("Class", CInt 1); ("Paper", CInt 1); ("Q_1", CInt 10); ("Q_2", CStr "x");
            ("Total_Marks", CInt 10)],
        (evaluate_student students_example student_matched world_example).2)
  /\ ~ every_question_col_awarded students_example
         [("Class", CInt 1); ("Paper", CInt 1); ("Q_1", CInt 10); ("Q_2", CStr "x");
          ("Total_Marks", CInt 10)].
Proof.
  split; [vm_compute; reflexivity|]. split; [vm_compute; reflexivity|].
  intros H. destruct (H "Q_2") as (a & Ha & Hnum).
  - apply elem_of_all_question_cols. split; [|vm_compute; reflexivity].
    simpl. do 3 right. left.
  - vm_compute in Ha. injection Ha as <-. discriminate.
Qed.

Lemma Forall2_impl_elem {A B} (P Q : A -> B -> Prop) (l : list A) (k : list B) :
  Forall2 P l k -> (forall x y, x ∈ l -> P x y -> Q x y) -> Forall2 Q l k.
Proof.
  induction 1 as [|x y l k Hxy HF IH]; intros Himp; constructor.
  - apply Himp; [by left | done].
  - apply IH. intros x' y' Hin. apply Himp. by right.
Qed.

Lemma startswith_Q_not_identity c :
  PyStr.startswith "Q_" c = true -> c <> "Class" /\ c <> "Paper".
Proof. intros H. split; intros ->; vm_compute in H; discriminate. Qed.

Lemma student_identity_set c v student :
  PyStr.startswith "Q_" c = true ->
  student_identity (series_set c v student) = student_identity student.
Proof.
  intros Hq. apply startswith_Q_not_identity in Hq as [H1 H2].
  unfold student_identity, series_get_default.
  by rewrite !series_get_set_ne.
Qed.

(** C8, amended: in the result row of a student with a matching key, a
    question column that the key names and the student table has holds a
    number, the award of a key row for that column; every column that the
    key does not name, Total_Marks apart, holds what the student row held;
    Total_Marks holds a number; and the row has the columns of the
    student table, followed by Total_Marks when that is not one of them. *)
Theorem result_row_of_matched_student (students_df : DataFrame) (student : Series)
    (w w' : World) (ans_df : DataFrame) (row_result : Series) :
  answer_keys w !! student_identity student = Some ans_df ->
  index student = columns students_df ->
  evaluate_student students_df student w = (Ok row_result, w') ->
  (forall c, c ∈ key_question_cols ans_df -> c ∈ columns students_df ->
     exists a row,
       series_get c row_result = Some a /\ is_numeric a = true
       /\ row ∈ rows (coerce_question_no ans_df)
       /\ key_row_outcome students_df student row = Ok (Scored c a))
  /\ (forall c, c ∉ key_question_cols ans_df -> c <> "Total_Marks" ->
        series_get c row_result = series_get c student)
  /\ (exists total,
        series_get "Total_Marks" row_result = Some total /\ is_numeric total = true)
  /\ index row_result
     = if has_column "Total_Marks" students_df then columns students_df
       else (columns students_df ++ ["Total_Marks"])%list.
Proof.
  intros E Hidx Hev.
  destruct (proj1 (evaluate_student_matched_Ok _ _ _ _ _ _ E) Hev)
    as (_ & outs & total & HF & Hsum & -> & _).
  destruct (py_sum_from_numeric (CInt 0) _ _ eq_refl Hsum) as [Htotal Hnum].
  split; [|split; [|split]].
  - intros c Hkey Hcol.
    assert (c ∈ (awards outs).*1) as Hin.
    { unfold key_question_cols in Hkey.
      apply list_elem_of_fmap in Hkey as (raw & -> & Hraw).
      assert (coerce_row raw ∈ rows (coerce_question_no ans_df)) as Hrow.
      { rewrite rows_coerce_question_no. apply list_elem_of_fmap. eauto. }
      destruct (outcome_of_row _ _ _ _ _ HF Hrow) as (o & Ho & Hout).
      destruct (outcome_of_present _ _ _ _ _ (key_q_no_coerce_row raw)
                  (proj2 (has_column_true _ _) Hcol) Hout) as (a & ->).
      apply list_elem_of_fmap. exists (question_col (raw_q_no raw), a).
      split; [done | by apply elem_of_awards_Scored]. }
    destruct (series_get_write_awards_in c (awards outs) student Hin) as (a & Ha & Hget).
    destruct (elem_of_awards _ _ _ _ _ _ HF Ha) as (row & Hrow & Ho).
    exists a, row. split; [|split; [|done]].
    + rewrite series_get_set_ne; [done|].
      apply outcome_Scored_inv in Ho as (q & ? & ? & ? & _ & -> & _).
      apply not_eq_sym, question_col_not_total.
    + rewrite Forall_forall in Hnum. apply Hnum.
      apply list_elem_of_fmap. exists (c, a). done.
  - intros c Hkey Hne. rewrite series_get_set_ne by done.
    apply series_get_write_awards_notin. intros Hin.
    by destruct (awards_columns _ _ _ _ _ HF Hin).
  - exists total. split; [apply series_get_set_eq | done].
  - assert (index (write_awards (awards outs) student) = columns students_df) as Hi.
    { rewrite index_write_awards; [done|]. intros c Hin. rewrite Hidx.
      by destruct (awards_columns _ _ _ _ _ HF Hin). }
    destruct (has_column "Total_Marks" students_df) eqn:Ht.
    + rewrite index_set_present; [done|]. rewrite Hi. by apply has_column_true.
    + rewrite index_set_absent; [by rewrite Hi|]. rewrite Hi. by apply has_column_false.
Qed.

Lemma result_row_of_matched_student_witness :
  (exists total,
      series_get "Total_Marks"
        [("Class", CInt 1); ("Paper", CInt 1); ("Q_1", CInt 10); ("Q_2", CStr "x");
         ("Total_Marks", CInt 10)] = Some total
      /\ is_numeric total = true)
  /\ index [("Class", CInt 1); ("Paper", CInt 1); ("Q_1", CInt 10); ("Q_2", CStr "x");
            ("Total_Marks", CInt 10)]
     = ["Class"; "Paper"; "Q_1"; "Q_2"; "Total_Marks"].
Proof.
  pose proof (result_row_of_matched_student students_example student_matched
                world_example
                (evaluate_student students_example student_matched world_example).2
                key_example
                [("Class", CInt 1); ("Paper", CInt 1); ("Q_1", CInt 10);
                 ("Q_2", CStr "x"); ("Total_Marks", CInt 10)]) as H.
  destruct H as (_ & _ & H3 & H4).
  - vm_compute. reflexivity.
  - vm_compute. reflexivity.
  - vm_compute. reflexivity.
  - split; [exact H3 | exact H4].
Defined.

(** C10: a question column that no key row of the matched table names
    keeps the student's answer in the result row, and the evaluation does
    not depend on that answer: with any other value in the column it
    returns as well, in the same world and with the same Total_Marks. *)
Theorem unreferenced_question_column (students_df : DataFrame) (student : Series)
    (w w' : World) (ans_df : DataFrame) (c : string) (row_result : Series) :
  answer_keys w !! student_identity student = Some ans_df ->
  PyStr.startswith "Q_" c = true ->
  c ∉ key_question_cols ans_df ->
  evaluate_student students_df student w = (Ok row_result, w') ->
  series_get c row_result = series_get c student
  /\ (forall v, exists row_result',
         evaluate_student students_df (series_set c v student) w = (Ok row_result', w')
         /\ series_get "Total_Marks" row_result' = series_get "Total_Marks" row_result).
Proof.
  intros E Hq Hkey Hev.
  destruct (proj1 (evaluate_student_matched_Ok _ _ _ _ _ _ E) Hev)
    as (Hqn & outs & total & HF & Hsum & -> & ->).
  split.
  - rewrite series_get_set_ne by (apply not_eq_sym; by apply startswith_Q_not_total).
    apply series_get_write_awards_notin. intros Hin.
    by destruct (awards_columns _ _ _ _ _ HF Hin).
  - intros v.
    exists (series_set "Total_Marks" total
              (write_awards (awards outs) (series_set c v student))).
    split; [|by rewrite !series_get_set_eq].
    pose proof (student_identity_set c v student Hq) as Hid.
    apply evaluate_student_matched_Ok with (ans_df := ans_df); [by rewrite Hid|].
    split; [done|]. exists outs, total. rewrite Hid.
    split; [|done].
    apply (Forall2_impl_elem _ _ _ _ HF).
    intros row o Hrow Ho.
    rewrite rows_coerce_question_no in Hrow.
    apply list_elem_of_fmap in Hrow as (raw & -> & Hraw).
    assert (question_col (raw_q_no raw) <> c) as Hne.
    { intros <-. apply Hkey. unfold key_question_cols.
      apply list_elem_of_fmap. eauto. }
    rewrite <- Ho. unfold key_row_outcome.
    rewrite key_q_no_coerce_row. simpl.
    by rewrite series_getitem_set_ne by (by apply not_eq_sym).
Qed.

Lemma unreferenced_question_column_witness :
  series_get "Q_2"
    [("Class", CInt 1); ("Paper", CInt 1); ("Q_1", CInt 10); ("Q_2", CStr "x");
     ("Total_Marks", CInt 10)] = series_get "Q_2" student_matched
  /\ exists row_result',
      evaluate_student students_example (series_set "Q_2" (CStr "A,B") student_matched)
        world_example
      = (Ok row_result',
         (evaluate_student students_example student_matched world_example).2)
      /\ series_get "Total_Marks" row_result'
         = series_get "Total_Marks"
             [("Class", CInt 1); ("Paper", CInt 1); ("Q_1", CInt 10); ("Q_2", CStr "x");
              ("Total_Marks", CInt 10)].
Proof.
  pose proof (unreferenced_question_column students_example student_matched
                world_example
                (evaluate_student students_example student_matched world_example).2
                key_example "Q_2"
                [("Class", CInt 1); ("Paper", CInt 1); ("Q_1", CInt 10);
                 ("Q_2", CStr "x"); ("Total_Marks", CInt 10)]) as H.
  destruct H as (H1 & H2).
  - vm_compute. reflexivity.
  - vm_compute. reflexivity.
  - unfold key_question_cols. intros Hin.
    apply list_elem_of_fmap in Hin as (raw & Hraw & Hin).
    simpl in Hin. apply elem_of_cons in Hin as [->|Hin].
    + vm_compute in Hraw. discriminate.
    + apply elem_of_cons in Hin as [->|Hin].
      * vm_compute in Hraw. discriminate.
      * by apply elem_of_nil in Hin.
  - vm_compute. reflexivity.
  - split; [exact H1 | exact (H2 (CStr "A,B"))].
Defined.

(** ** C9: what [evaluate] does to the registry *)

(** Against C9 as stated: the key of the example has the integers 1 and 3
    as question numbers before [evaluate] runs and the strings "1" and "3"
    after it has returned. *)
Lemma evaluate_rewrites_question_no :
  exists final_df w',
    evaluate students_example world_example = (Ok final_df, w')
    /\ rows <$> answer_keys world_example !! ("1", "1")
       = Some [ [("QUESTION_NO", CInt 1); ("ANSWER_KEY", CStr "B,A");
                 ("MARKS", CInt 10); ("QUESTION_TYPE", CStr "AND")];
                [("QUESTION_NO", CInt 3); ("ANSWER_KEY", CStr "C");
                 ("MARKS", CInt 5); ("QUESTION_TYPE", CStr "OR")] ]
    /\ rows <$> answer_keys w' !! ("1", "1")
       = Some [ [("QUESTION_NO", CStr "1"); ("ANSWER_KEY", CStr "B,A");
                 ("MARKS", CInt 10); ("QUESTION_TYPE", CStr "AND")];
                [("QUESTION_NO", CStr "3"); ("ANSWER_KEY", CStr "C");
                 ("MARKS", CInt 5); ("QUESTION_TYPE", CStr "OR")] ]
    /\ answer_keys w' <> answer_keys world_example.
Proof.
  exists (frame_of_rows
            [ [("Class", CInt 1); ("Paper", CInt 1); ("Q_1", CInt 10);
               ("Q_2", CStr "x"); ("Total_Marks", CInt 10)];
              [("Class", CInt 1); ("Paper", CInt 9); ("Q_1", CInt 0);
               ("Q_2", CInt 0); ("Total_Marks", CInt 0)] ]).
  exists (evaluate students_example world_example).2.
  split; [vm_compute; reflexivity|].
  split; [vm_compute; reflexivity|].
  split; [vm_compute; reflexivity|].
  intros Heq.
  assert (rows <$> answer_keys (evaluate students_example world_example).2 !! ("1", "1")
          = rows <$> answer_keys world_example !! ("1", "1")) as H by (by rewrite Heq).
  vm_compute in H. discriminate.
Qed.

Lemma coerce_question_no_as_text ans_df :
  has_column "QUESTION_NO" ans_df = true ->
  question_no_as_text ans_df (coerce_question_no ans_df).
Proof.
  intros H. split; [by apply columns_coerce_question_no|].
  rewrite rows_coerce_question_no.
  induction (rows ans_df) as [|row l IH]; simpl; constructor; [|done].
  split.
  - intros c Hne. by apply series_get_coerce_row.
  - unfold coerce_row. apply series_get_set_eq.
Qed.

(** A well-formed key table whose question numbers are text is its own
    conversion. *)
Lemma coerce_question_no_text ans_df :
  has_column "QUESTION_NO" ans_df = true ->
  Forall (fun row => NoDup (index row)
                     /\ exists s, series_get "QUESTION_NO" row = Some (CStr s))
    (rows ans_df) ->
  coerce_question_no ans_df = ans_df.
Proof.
  intros H Hrows.
  assert (map coerce_row (rows ans_df) = rows ans_df) as Hmap.
  { induction Hrows as [|row l [Hnd [s Hs]] _ IH]; simpl; [done|].
    rewrite IH. f_equal. by apply coerce_row_text with (s := s). }
  pose proof (columns_coerce_question_no _ H) as Hc.
  pose proof (rows_coerce_question_no ans_df) as Hr.
  rewrite Hmap in Hr.
  destruct ans_df as [cols rs].
  destruct (coerce_question_no {| columns := cols; rows := rs |}) as [cols' rs'].
  simpl in *. by subst cols' rs'.
Qed.

Lemma key_table_effect_mono students students' m m' :
  (forall s, s ∈ students -> s ∈ students') ->
  key_table_effect students m m' -> key_table_effect students' m m'.
Proof.
  intros Hsub H k. destruct (H k) as [Hk|(s & df & Hs & ?)]; [by left|].
  right. exists s, df. split; [by apply Hsub | done].
Qed.

Lemma evaluate_student_key_table_effect students_df student w :
  key_table_effect [student] (answer_keys w)
    (answer_keys (evaluate_student students_df student w).2).
Proof.
  intros k. rewrite evaluate_student_keys.
  destruct (answer_keys w !! student_identity student) as [ans_df|] eqn:E; [|by left].
  destruct (has_column "QUESTION_NO" ans_df) eqn:Hq; [|by left].
  destruct (decide (student_identity student = k)) as [<-|Hne].
  - right. exists student, ans_df. rewrite lookup_insert_eq.
    repeat split; try done. by left.
  - left. by rewrite lookup_insert_ne.
Qed.

Lemma key_table_effect_trans students1 students2 m1 m2 m3 :
  key_table_effect students1 m1 m2 ->
  key_table_effect students2 m2 m3 ->
  key_table_effect (students1 ++ students2) m1 m3.
Proof.
  intros H12 H23 k.
  destruct (H23 k) as [E23|(s2 & df2 & Hs2 & Hid2 & E2 & Hq2 & E3)];
    destruct (H12 k) as [E12|(s1 & df1 & Hs1 & Hid1 & E1 & Hq1 & E2')].
  - left. congruence.
  - right. exists s1, df1. rewrite E23.
    repeat split; try done. apply elem_of_app. by left.
  - right. exists s2, df2. rewrite <- E12.
    repeat split; try done. apply elem_of_app. by right.
  - right. exists s1, df1. rewrite E2' in E2. injection E2 as <-.
    rewrite coerce_question_no_idemp in E3 by done.
    repeat split; try done. apply elem_of_app. by left.
Qed.

Lemma evaluate_rows_key_table_effect students_df l w :
  key_table_effect l (answer_keys w)
    (answer_keys (evaluate_rows students_df l w).2).
Proof.
  revert w. induction l as [|s l IH]; intros w.
  - intros k. by left.
  - rewrite evaluate_rows_cons.
    pose proof (evaluate_student_key_table_effect students_df s w) as Hs.
    destruct (evaluate_student students_df s w) as [[r|e] w1]; simpl in Hs.
    + pose proof (IH w1) as Hl.
      pose proof (key_table_effect_trans _ _ _ _ _ Hs Hl) as H.
      by destruct (evaluate_rows students_df l w1) as [[rs|e] w2].
    + simpl. apply (key_table_effect_mono [s]); [|done].
      intros s' Hin. apply elem_of_cons in Hin as [->|Hin]; [by left|].
      by apply elem_of_nil in Hin.
Qed.

(** After an evaluation that returns, the key table of every student row
    that has one is the converted table. *)
Lemma evaluate_rows_keys_Ok students_df l w results w' student ans_df :
  evaluate_rows students_df l w = (Ok results, w') ->
  student ∈ l ->
  answer_keys w !! student_identity student = Some ans_df ->
  has_column "QUESTION_NO" ans_df = true
  /\ answer_keys w' !! student_identity student = Some (coerce_question_no ans_df).
Proof.
  revert w results. induction l as [|s l IH]; intros w results Hev Hin E.
  - by apply elem_of_nil in Hin.
  - rewrite evaluate_rows_cons in Hev.
    pose proof (evaluate_student_keys students_df s w) as Hk.
    pose proof (evaluate_rows_key_table_effect students_df l
                  (evaluate_student students_df s w).2) as Hl.
    destruct (evaluate_student students_df s w) as [[r|e] w1] eqn:Es; [|done].
    destruct (evaluate_rows students_df l w1) as [[rs|e] w2] eqn:Er; [|done].
    injection Hev as <- <-. simpl in Hk, Hl. rewrite Er in Hl. simpl in Hl.
    destruct (decide (student_identity s = student_identity student)) as [Hid|Hne].
    + rewrite Hid in Hk. rewrite E in Hk.
      assert (has_column "QUESTION_NO" ans_df = true) as Hq.
      { assert (answer_keys w !! student_identity s = Some ans_df) as E'
            by (by rewrite Hid).
        by destruct (proj1 (evaluate_student_matched_Ok _ _ _ _ _ _ E') Es). }
      split; [done|]. rewrite Hq in Hk.
      destruct (Hl (student_identity student))
        as [E2|(s2 & df2 & _ & _ & E1 & Hq2 & E2)].
      * rewrite E2, Hk. apply lookup_insert_eq.
      * rewrite Hk, lookup_insert_eq in E1. injection E1 as <-.
        by rewrite coerce_question_no_idemp in E2.
    + apply elem_of_cons in Hin as [->|Hin]; [done|].
      apply (IH w1 rs Er Hin).
      rewrite Hk. destruct (answer_keys w !! student_identity s) as [df|]; [|done].
      destruct (has_column "QUESTION_NO" df); [|done].
      by rewrite lookup_insert_ne.
Qed.

Lemma evaluate_world students_df w :
  (evaluate students_df w).2 = (evaluate_rows students_df (rows students_df) w).2.
Proof.
  unfold evaluate, bind, ret.
  by destruct (evaluate_rows students_df (rows students_df) w) as [[rs|e] w2].
Qed.

(** C9, amended: [evaluate] adds no entry to the registry and removes
    none.  A key table is left as it was, or, when it is the key of one of
    the student rows, replaced by itself with the QUESTION_NO column
    converted to text: same columns, same cells elsewhere.  After an
    evaluation that returns, this has happened to the key of every student
    row that has one.  A table whose question numbers were text already is
    thereby unchanged. *)
Theorem evaluate_registry_effect (students_df : DataFrame) (w : World) :
  key_table_effect (rows students_df) (answer_keys w)
    (answer_keys (evaluate students_df w).2)
  /\ (forall final_df w' student ans_df,
         evaluate students_df w = (Ok final_df, w') ->
         student ∈ rows students_df ->
         answer_keys w !! student_identity student = Some ans_df ->
         answer_keys w' !! student_identity student = Some (coerce_question_no ans_df))
  /\ (forall ans_df,
         has_column "QUESTION_NO" ans_df = true ->
         question_no_as_text ans_df (coerce_question_no ans_df))
  /\ (forall ans_df,
         has_column "QUESTION_NO" ans_df = true ->
         Forall (fun row => NoDup (index row)
                            /\ exists s, series_get "QUESTION_NO" row = Some (CStr s))
           (rows ans_df) ->
         coerce_question_no ans_df = ans_df).
Proof.
  split; [|split; [|split]].
  - rewrite evaluate_world. apply evaluate_rows_key_table_effect.
  - intros final_df w' student ans_df Hev Hin E.
    unfold evaluate, bind, ret in Hev.
    destruct (evaluate_rows students_df (rows students_df) w) as [[rs|e] w2] eqn:Er;
      [|done].
    injection Hev as _ <-.
    by destruct (evaluate_rows_keys_Ok _ _ _ _ _ _ _ Er Hin E).
  - apply coerce_question_no_as_text.
  - apply coerce_question_no_text.
Qed.

(** * Further properties of the engine *)

(** ** Rows are evaluated independently *)

Lemma has_column_coerce_question_no ans_df :
  has_column "QUESTION_NO" ans_df = true ->
  has_column "QUESTION_NO" (coerce_question_no ans_df) = true.
Proof.
  intros H. unfold has_column. by rewrite columns_coerce_question_no.
Qed.

(** What a matched student row returns, read off the loop over the key
    rows run in any world. *)
Lemma evaluate_student_matched_result students_df student w w0 ans_df :
  answer_keys w !! student_identity student = Some ans_df ->
  (evaluate_student students_df student w).1
  = if has_column "QUESTION_NO" ans_df then
      match (for_each (evaluate_key_row students_df student)
               (rows (coerce_question_no ans_df)) (student, CInt 0) w0).1 with
      | Ok acc => Ok (series_set "Total_Marks" acc.2 acc.1)
      | Raise e => Raise e
      end
    else Raise (KeyError "QUESTION_NO").
Proof.
  intros E. rewrite (evaluate_student_matched _ _ _ _ E).
  destruct (has_column "QUESTION_NO" ans_df); [|done].
  rewrite (for_each_key_rows_result students_df student _ _ w0
             (set_key (student_identity student) (coerce_question_no ans_df) w)).
  by destruct (for_each _ _ _ (set_key _ _ _)) as [[acc|e] w1].
Qed.

(** Converting the question numbers of key tables does not change what a
    student row returns. *)
Lemma evaluate_student_result_effect students_df student l w w1 :
  key_table_effect l (answer_keys w) (answer_keys w1) ->
  (evaluate_student students_df student w1).1
  = (evaluate_student students_df student w).1.
Proof.
  intros H.
  destruct (H (student_identity student))
    as [E|(s & df & _ & _ & E & Hq & E1)].
  - destruct (answer_keys w !! student_identity student) as [df|] eqn:E0.
    + rewrite (evaluate_student_matched_result _ _ w1 w df E).
      by rewrite (evaluate_student_matched_result _ _ w w df E0).
    + by rewrite !evaluate_student_unmatched.
  - rewrite (evaluate_student_matched_result _ _ w1 w _ E1).
    rewrite (evaluate_student_matched_result _ _ w w _ E).
    rewrite has_column_coerce_question_no, Hq by done.
    by rewrite coerce_question_no_idemp.
Qed.

Lemma evaluate_rows_rowwise students_df l l0 w0 w results :
  key_table_effect l0 (answer_keys w0) (answer_keys w) ->
  (evaluate_rows students_df l w).1 = Ok results
  <-> Forall2 (fun student r => (evaluate_student students_df student w0).1 = Ok r)
        l results.
Proof.
  revert l0 w results. induction l as [|s l IH]; intros l0 w results H0.
  - simpl. unfold ret. simpl. split.
    + intros [= <-]. constructor.
    + intros HF. by inversion HF.
  - rewrite evaluate_rows_cons.
    pose proof (evaluate_student_result_effect students_df s l0 w0 w H0) as Hs.
    pose proof (evaluate_student_key_table_effect students_df s w) as He.
    destruct (evaluate_student students_df s w) as [[r|e] w1]; simpl in Hs, He.
    + pose proof (key_table_effect_trans _ _ _ _ _ H0 He) as H1.
      pose proof (IH (l0 ++ [s])%list w1) as IH'.
      destruct (evaluate_rows students_df l w1) as [[rs|e] w2]; simpl in *.
      * split.
        -- intros [= <-]. constructor; [done|]. by apply (IH' rs H1).
        -- intros HF. inversion HF as [|? r' ? rs' Hr HF']; subst.
           rewrite <- Hs in Hr. injection Hr as <-.
           apply (IH' rs' H1) in HF'. by injection HF' as <-.
      * split; [done|]. intros HF. inversion HF as [|? r' ? rs' Hr HF']; subst.
        by apply (IH' rs' H1) in HF'.
    + split; [done|]. intros HF. inversion HF as [|? r' ? rs' Hr HF']; subst.
      rewrite <- Hs in Hr. done.
Qed.

Lemma key_table_effect_refl m : key_table_effect [] m m.
Proof. intros k. by left. Qed.

Lemma evaluate_result students_df w :
  (evaluate students_df w).1
  = match (evaluate_rows students_df (rows students_df) w).1 with
    | Ok results => Ok (frame_of_rows results)
    | Raise e => Raise e
    end.
Proof.
  unfold evaluate, bind, ret.
  by destruct (evaluate_rows students_df (rows students_df) w) as [[rs|e] w2].
Qed.

(** [evaluate] is a map over the student rows: it returns exactly when
    every student row, evaluated on its own in the world [evaluate] starts
    in, returns; the rows of the table it returns are those results, one
    per student row and in the same order. *)
Theorem evaluate_is_rowwise (students_df : DataFrame) (w : World) (final_df : DataFrame) :
  (evaluate students_df w).1 = Ok final_df
  <-> exists results,
      final_df = frame_of_rows results
      /\ Forall2 (fun student r => (evaluate_student students_df student w).1 = Ok r)
           (rows students_df) results.
Proof.
  rewrite evaluate_result.
  pose proof (fun rs => evaluate_rows_rowwise students_df (rows students_df) [] w w rs
                          (key_table_effect_refl _)) as H.
  destruct (evaluate_rows students_df (rows students_df) w).1 as [rs|e] eqn:E.
  - split.
    + intros [= <-]. exists rs. split; [done|]. by apply H.
    + intros (rs' & -> & HF). apply H in HF. by injection HF as <-.
  - split; [done|]. intros (rs' & _ & HF). by apply H in HF.
Qed.

(** ** Running [evaluate] again *)

Lemma evaluate_rows_keys_settled students_df l w :
  (forall student ans_df,
      student ∈ l -> answer_keys w !! student_identity student = Some ans_df ->
      has_column "QUESTION_NO" ans_df = true -> coerce_question_no ans_df = ans_df) ->
  answer_keys (evaluate_rows students_df l w).2 = answer_keys w.
Proof.
  revert w. induction l as [|s l IH]; intros w H; [done|].
  rewrite evaluate_rows_cons.
  pose proof (evaluate_student_keys students_df s w) as Hk.
  assert (answer_keys (evaluate_student students_df s w).2 = answer_keys w) as Hk'.
  { rewrite Hk. destruct (answer_keys w !! student_identity s) as [df|] eqn:E; [|done].
    destruct (has_column "QUESTION_NO" df) eqn:Hq; [|done].
    rewrite (H s df) by (done || by left). by apply insert_id. }
  destruct (evaluate_student students_df s w) as [[r|e] w1]; simpl in Hk'; [|done].
  assert (answer_keys (evaluate_rows students_df l w1).2 = answer_keys w1) as Hl.
  { apply IH. intros st df Hin E Hq. rewrite Hk' in E.
    apply (H st df); [by right | done | done]. }
  destruct (evaluate_rows students_df l w1) as [[rs|e] w2]; simpl in *; congruence.
Qed.

(** Once [evaluate] has returned, running it again on the same student
    table returns the same table and leaves every key table as the first
    run left it. *)
Theorem evaluate_twice (students_df : DataFrame) (w w' : World) (final_df : DataFrame) :
  evaluate students_df w = (Ok final_df, w') ->
  (evaluate students_df w').1 = Ok final_df
  /\ answer_keys (evaluate students_df w').2 = answer_keys w'.
Proof.
  intros Hev.
  assert ((evaluate students_df w).1 = Ok final_df) as Hres by (by rewrite Hev).
  assert (w' = (evaluate students_df w).2) as Hw by (by rewrite Hev).
  rewrite evaluate_world in Hw.
  pose proof (evaluate_rows_key_table_effect students_df (rows students_df) w) as Heff.
  rewrite <- Hw in Heff.
  split.
  - rewrite evaluate_result in Hres |- *.
    destruct (evaluate_rows students_df (rows students_df) w).1 as [rs|e] eqn:E;
      [|done].
    injection Hres as <-.
    apply (evaluate_rows_rowwise students_df (rows students_df) [] w w rs
             (key_table_effect_refl _)) in E.
    apply (evaluate_rows_rowwise students_df (rows students_df) _ w w' rs Heff) in E.
    by rewrite E.
  - rewrite evaluate_world. apply evaluate_rows_keys_settled.
    intros student df' Hin E' Hq'.
    unfold evaluate, bind, ret in Hev.
    destruct (evaluate_rows students_df (rows students_df) w) as [[rs|e] w2] eqn:Er;
      [|done].
    injection Hev as _ ->.
    destruct (answer_keys w !! student_identity student) as [df|] eqn:E.
    + destruct (evaluate_rows_keys_Ok _ _ _ _ _ _ _ Er Hin E) as [Hq E2].
      rewrite E2 in E'. injection E' as <-. by apply coerce_question_no_idemp.
    + destruct (Heff (student_identity student)) as [E2|(? & ? & _ & _ & E2 & _)];
        congruence.
Qed.

Lemma evaluate_twice_witness :
  (evaluate students_example (evaluate students_example world_example).2).1
  = (evaluate students_example world_example).1
  /\ answer_keys (evaluate students_example (evaluate students_example world_example).2).2
     = answer_keys (evaluate students_example world_example).2.
Proof.
  destruct (evaluate_twice students_example world_example
              (evaluate students_example world_example).2
              (frame_of_rows
                 [ [("Class", CInt 1); ("Paper", CInt 1); ("Q_1", CInt 10);
                    ("Q_2", CStr "x"); ("Total_Marks", CInt 10)];
                   [("Class", CInt 1); ("Paper", CInt 9); ("Q_1", CInt 0);
                    ("Q_2", CInt 0); ("Total_Marks", CInt 0)] ])) as [H1 H2].
  - vm_compute. reflexivity.
  - split; [|exact H2]. rewrite H1. vm_compute. reflexivity.
Defined.

(** ** What a result row keeps *)

Lemma awards_are_question_cols students_df student l outs c :
  Forall2 (fun row o => key_row_outcome students_df student row = Ok o) l outs ->
  c ∈ (awards outs).*1 -> PyStr.startswith "Q_" c = true.
Proof.
  intros HF Hin. apply list_elem_of_fmap in Hin as ([c' a] & -> & Hin). simpl.
  destruct (elem_of_awards _ _ _ _ _ _ HF Hin) as (row & _ & Ho).
  apply outcome_Scored_inv in Ho as (q & ? & ? & ? & _ & -> & _).
  apply startswith_question_col.
Qed.

(** Whether a student has a key or not, the evaluation changes no column
    other than the question columns and Total_Marks: class, paper, name
    and the like are in the result row as they were. *)
Theorem other_columns_kept (students_df : DataFrame) (student : Series)
    (w w' : World) (row_result : Series) (c : string) :
  evaluate_student students_df student w = (Ok row_result, w') ->
  PyStr.startswith "Q_" c = false ->
  c <> "Total_Marks" ->
  series_get c row_result = series_get c student.
Proof.
  intros Hev Hq Hne.
  destruct (answer_keys w !! student_identity student) as [ans_df|] eqn:E.
  - destruct (proj1 (evaluate_student_matched_Ok _ _ _ _ _ _ E) Hev)
      as (_ & outs & total & HF & _ & -> & _).
    rewrite series_get_set_ne by done.
    apply series_get_write_awards_notin. intros Hin.
    rewrite (awards_are_question_cols _ _ _ _ _ HF Hin) in Hq. done.
  - rewrite evaluate_student_unmatched in Hev by done. injection Hev as <- _.
    rewrite series_get_set_ne by done.
    rewrite zero_question_cols_awards.
    apply series_get_write_awards_notin. intros Hin.
    rewrite <- list_fmap_compose in Hin. simpl in Hin. rewrite list_fmap_id in Hin.
    apply elem_of_all_question_cols in Hin as [_ Hin]. congruence.
Qed.

Lemma other_columns_kept_witness :
  series_get "Class"
    [("Class", CInt 1); ("Paper", CInt 9); ("Q_1", CInt 0); ("Q_2", CInt 0);
     ("Total_Marks", CInt 0)] = series_get "Class" student_unmatched.
Proof.
  apply (other_columns_kept students_example student_unmatched world_example
           world_example).
  - vm_compute. reflexivity.
  - vm_compute. reflexivity.
  - discriminate.
Defined.

Lemma index_result_row students_df student w w' row_result :
  index student = columns students_df ->
  evaluate_student students_df student w = (Ok row_result, w') ->
  index row_result = result_columns students_df.
Proof.
  intros Hidx Hev.
  assert (forall rr, index rr = columns students_df ->
                     forall t, index (series_set "Total_Marks" t rr)
                               = result_columns students_df) as Htotal.
  { intros rr Hi t. unfold result_columns.
    destruct (has_column "Total_Marks" students_df) eqn:Ht.
    - rewrite index_set_present; [done|]. rewrite Hi. by apply has_column_true.
    - rewrite index_set_absent; [by rewrite Hi|]. rewrite Hi.
      by apply has_column_false. }
  destruct (answer_keys w !! student_identity student) as [ans_df|] eqn:E.
  - destruct (proj1 (evaluate_student_matched_Ok _ _ _ _ _ _ E) Hev)
      as (_ & outs & total & HF & _ & -> & _).
    apply Htotal. rewrite index_write_awards; [done|].
    intros c Hin. rewrite Hidx. by destruct (awards_columns _ _ _ _ _ HF Hin).
  - rewrite evaluate_student_unmatched in Hev by done. injection Hev as <- _.
    apply Htotal. rewrite zero_question_cols_awards.
    rewrite index_write_awards; [done|].
    intros c Hin. rewrite <- list_fmap_compose in Hin. simpl in Hin.
    rewrite list_fmap_id in Hin. rewrite Hidx.
    by apply elem_of_all_question_cols in Hin as [Hin _].
Qed.

(** For a student table whose rows all carry its columns, the table that
    [evaluate] returns has one row per student row, every row has the
    student columns followed by Total_Marks (unless that is a student
    column), and these are the columns of the table; for a student table
    without rows the returned table has no columns at all, not even
    Total_Marks. *)
Theorem result_table_shape (students_df : DataFrame) (w w' : World)
    (final_df : DataFrame) :
  Forall (fun student => index student = columns students_df) (rows students_df) ->
  evaluate students_df w = (Ok final_df, w') ->
  length (rows final_df) = length (rows students_df)
  /\ Forall (fun r => index r = result_columns students_df) (rows final_df)
  /\ columns final_df
     = match rows students_df with
       | [] => []
       | _ :: _ => result_columns students_df
       end.
Proof.
  intros Hwf Hev.
  assert ((evaluate students_df w).1 = Ok final_df) as Hres by (by rewrite Hev).
  rewrite evaluate_result in Hres.
  destruct (evaluate_rows students_df (rows students_df) w).1 as [rs|e] eqn:E; [|done].
  injection Hres as <-.
  apply (evaluate_rows_rowwise students_df (rows students_df) [] w w rs
           (key_table_effect_refl _)) in E.
  assert (Forall (fun r => index r = result_columns students_df) rs) as Hall.
  { clear Hev. induction E as [|st r l rs Hr HF IH]; [constructor|].
    apply Forall_cons in Hwf as [Hst Hwf]. constructor; [|by apply IH].
    destruct (evaluate_student students_df st w) as [res w1] eqn:Es.
    simpl in Hr. subst res. by apply (index_result_row _ _ _ _ _ Hst Es). }
  split; [symmetry; by apply (Forall2_length _ _ _ E)|].
  split; [done|]. simpl.
  destruct E as [|st r l rs Hr HF]; [done|].
  by apply Forall_cons in Hall as [Hr' _].
Qed.

Lemma result_table_shape_witness :
  length (rows (frame_of_rows
                  [ [("Class", CInt 1); ("Paper", CInt 1); ("Q_1", CInt 10);
                     ("Q_2", CStr "x"); ("Total_Marks", CInt 10)];
                    [("Class", CInt 1); ("Paper", CInt 9); ("Q_1", CInt 0);
                     ("Q_2", CInt 0); ("Total_Marks", CInt 0)] ]))
  = length (rows students_example).
Proof.
  refine (proj1 (result_table_shape students_example world_example
                   (evaluate students_example world_example).2 _ _ _)).
  - repeat constructor.
  - vm_compute. reflexivity.
Defined.

(** ** Totals of integer keys *)

Lemma series_getitem_Ok k s v : series_getitem k s = Ok v <-> series_get k s = Some v.
Proof.
  unfold series_getitem. destruct (series_get k s); split; intros H; congruence.
Qed.

Lemma award_of_integer_marks students_df student row o z :
  key_row_outcome students_df student (coerce_row row) = Ok o ->
  series_get "MARKS" row = Some (CInt z) ->
  awards [o] = [] \/ exists c, awards [o] = [(c, CInt z)] \/ awards [o] = [(c, CInt 0)].
Proof.
  intros Ho Hz. destruct o as [c a|c q]; [|by left].
  right. exists c.
  apply outcome_Scored_inv in Ho as (q & sa & ca & m & _ & _ & _ & _ & _ & Hm & ->).
  apply series_getitem_Ok in Hm. rewrite series_get_coerce_row in Hm by discriminate.
  rewrite Hz in Hm. injection Hm as <-.
  destruct (evaluate_answer_cases sa ca (key_q_type (coerce_row row)) (CInt z))
    as [-> | ->]; auto.
Qed.

Lemma integer_total_bounds students_df student l outs t0 total :
  Forall (fun row => exists z, series_get "MARKS" row = Some (CInt z) /\ 0 <= z) l ->
  Forall2 (fun row o => key_row_outcome students_df student row = Ok o)
    (map coerce_row l) outs ->
  py_sum_from (CInt t0) (awards outs).*2 = Ok total ->
  exists t, total = CInt t
            /\ t0 <= t <= t0 + foldr (fun row acc => marks_of row + acc) 0 l.
Proof.
  intros Hm. revert outs t0.
  induction Hm as [|row l (z & Hz & Hz0) _ IH]; intros outs t0 HF Hsum.
  - inversion HF; subst. simpl in Hsum. injection Hsum as <-.
    exists t0. simpl. split; [done | lia].
  - simpl in HF. inversion HF as [|? o ? outs' Ho HF']; subst.
    change (o :: outs') with ([o] ++ outs')%list in Hsum.
    rewrite awards_app, fmap_app in Hsum.
    assert (marks_of row = z) as Hmz by (unfold marks_of; by rewrite Hz).
    simpl. rewrite Hmz.
    destruct (award_of_integer_marks _ _ _ _ _ Ho Hz) as [E|(c & [E|E])];
      rewrite E in Hsum; simpl in Hsum;
      destruct (IH _ _ HF' Hsum) as (t & -> & Ht); exists t; split; (done || lia).
Qed.

(** With a key whose marks are non-negative integers, the Total_Marks of a
    matched student is an integer between 0 and the sum of all the marks
    of the key. *)
Theorem integer_total_in_range (students_df : DataFrame) (student : Series)
    (w w' : World) (ans_df : DataFrame) (row_result : Series) :
  answer_keys w !! student_identity student = Some ans_df ->
  Forall (fun row => exists z, series_get "MARKS" row = Some (CInt z) /\ 0 <= z)
    (rows ans_df) ->
  evaluate_student students_df student w = (Ok row_result, w') ->
  exists total,
    series_get "Total_Marks" row_result = Some (CInt total)
    /\ 0 <= total <= key_marks_total ans_df.
Proof.
  intros E Hm Hev.
  destruct (proj1 (evaluate_student_matched_Ok _ _ _ _ _ _ E) Hev)
    as (_ & outs & total & HF & Hsum & -> & _).
  rewrite rows_coerce_question_no in HF.
  destruct (integer_total_bounds _ _ _ _ _ _ Hm HF Hsum) as (t & -> & Ht).
  exists t. split; [apply series_get_set_eq|]. unfold key_marks_total. lia.
Qed.

Lemma integer_total_in_range_witness :
  exists total,
    series_get "Total_Marks"
      [("Class", CInt 1); ("Paper", CInt 1); ("Q_1", CInt 10); ("Q_2", CStr "x");
       ("Total_Marks", CInt 10)] = Some (CInt total)
    /\ 0 <= total <= key_marks_total key_example.
Proof.
  apply (integer_total_in_range students_example student_matched world_example
           (evaluate_student students_example student_matched world_example).2).
  - vm_compute. reflexivity.
  - repeat constructor; eexists; (split; [vm_compute; reflexivity | lia]).
  - vm_compute. reflexivity.
Defined.

(** ** The scorer, once more *)

(** The score does not depend on which of the two answers is the
    student's and which the key's. *)
Theorem evaluate_answer_symmetric (student_ans correct_ans marks : cell)
    (q_type : string) :
  evaluate_answer student_ans correct_ans q_type marks
  = evaluate_answer correct_ans student_ans q_type marks.
Proof.
  unfold evaluate_answer.
  assert (bool_decide (parse_options student_ans = parse_options correct_ans)
          = bool_decide (parse_options correct_ans = parse_options student_ans)) as ->.
  { apply bool_decide_ext. split; congruence. }
  assert (bool_decide (parse_options student_ans ∩ parse_options correct_ans ≠ ∅)
          = bool_decide (parse_options correct_ans ∩ parse_options student_ans ≠ ∅)) as ->.
  { apply bool_decide_ext.
    by rewrite (comm_L (∩) (parse_options student_ans)). }
  done.
Qed.

(** An answer that normalizes to the same set as the key earns the marks
    under every question type, with one exception: under "OR" two blank
    answers earn 0, while under the other types they earn the marks. *)
Theorem full_agreement (student_ans correct_ans marks : cell) (q_type : string) :
  parse_options student_ans = parse_options correct_ans ->
  (q_type <> "OR" ->
   evaluate_answer student_ans correct_ans q_type marks = marks)
  /\ (parse_options correct_ans <> ∅ ->
      evaluate_answer student_ans correct_ans "OR" marks = marks)
  /\ (parse_options correct_ans = ∅ ->
      evaluate_answer student_ans correct_ans "OR" marks = CInt 0).
Proof.
  intros Heq. split; [|split].
  - intros Hq. rewrite evaluate_answer_not_or by done.
    by rewrite bool_decide_eq_true_2.
  - intros Hne. unfold evaluate_answer. simpl. rewrite Heq.
    rewrite bool_decide_eq_true_2; [done|].
    by replace (parse_options correct_ans ∩ parse_options correct_ans)
      with (parse_options correct_ans) by set_solver.
  - intros He. unfold evaluate_answer. simpl. rewrite Heq, He.
    rewrite bool_decide_eq_false_2; [done|]. intros H. apply H. set_solver.
Qed.

Lemma full_agreement_witness :
  evaluate_answer (CFloat PyFloat.NaN) (CStr " , ") "NORMAL" (CInt 5) = CInt 5
  /\ evaluate_answer (CFloat PyFloat.NaN) (CStr " , ") "OR" (CInt 5) = CInt 0.
Proof.
  destruct (full_agreement (CFloat PyFloat.NaN) (CStr " , ") (CInt 5) "NORMAL")
    as (H1 & _ & H3).
  - vm_compute. reflexivity.
  - split; [apply H1; discriminate | apply H3; vm_compute; reflexivity].
Defined.

(** ** When [evaluate] raises *)

Lemma outcome_Ok_reads students_df student row o :
  key_row_outcome students_df student row = Ok o ->
  is_Some (series_get "QUESTION_NO" row)
  /\ is_Some (series_get "ANSWER_KEY" row)
  /\ is_Some (series_get "MARKS" row).
Proof.
  unfold key_row_outcome, key_q_no, series_getitem.
  destruct (series_get "QUESTION_NO" row); [|done].
  destruct (series_get "ANSWER_KEY" row); [|done].
  destruct (series_get "MARKS" row); [|done].
  intros _. eauto.
Qed.

Lemma evaluate_student_reads students_df student w ans_df r :
  answer_keys w !! student_identity student = Some ans_df ->
  (evaluate_student students_df student w).1 = Ok r ->
  Forall (fun row => is_Some (series_get "ANSWER_KEY" row)
                     /\ is_Some (series_get "MARKS" row)) (rows ans_df).
Proof.
  intros E Hr.
  destruct (evaluate_student students_df student w) as [res w1] eqn:Es.
  simpl in Hr. subst res.
  destruct (proj1 (evaluate_student_matched_Ok _ _ _ _ _ _ E) Es)
    as (_ & outs & total & HF & _).
  rewrite rows_coerce_question_no in HF. clear Es.
  revert outs HF. induction (rows ans_df) as [|row l IH]; intros outs HF;
    [constructor|].
  simpl in HF. inversion HF as [|? o ? outs' Ho HF']; subst.
  constructor; [|by apply (IH outs')].
  apply outcome_Ok_reads in Ho as (_ & Ha & Hm).
  by rewrite !series_get_coerce_row in Ha, Hm by discriminate.
Qed.

(** [evaluate] returns a table only if the key of every student row that
    has one can be read: the key table has a QUESTION_NO column and each
    of its rows has an ANSWER_KEY and a MARKS cell.  A single unreadable
    key that some student row matches makes the whole run raise. *)
Theorem evaluate_returns_only_if_keys_readable (students_df : DataFrame)
    (w w' : World) (final_df : DataFrame) (student : Series) (ans_df : DataFrame) :
  evaluate students_df w = (Ok final_df, w') ->
  student ∈ rows students_df ->
  answer_keys w !! student_identity student = Some ans_df ->
  has_column "QUESTION_NO" ans_df = true
  /\ Forall (fun row => is_Some (series_get "ANSWER_KEY" row)
                        /\ is_Some (series_get "MARKS" row)) (rows ans_df).
Proof.
  intros Hev Hin E.
  assert ((evaluate students_df w).1 = Ok final_df) as Hres by (by rewrite Hev).
  unfold evaluate, bind, ret in Hev.
  destruct (evaluate_rows students_df (rows students_df) w) as [[rs|e] w2] eqn:Er;
    [|done].
  split; [by destruct (evaluate_rows_keys_Ok _ _ _ _ _ _ _ Er Hin E)|].
  assert ((evaluate_rows students_df (rows students_df) w).1 = Ok rs) as Er'
      by (by rewrite Er).
  apply (evaluate_rows_rowwise students_df (rows students_df) [] w w rs
           (key_table_effect_refl _)) in Er'.
  apply list_elem_of_lookup in Hin as [i Hi].
  destruct (Forall2_lookup_l _ _ _ _ _ Er' Hi) as (r & _ & Hr).
  by apply (evaluate_student_reads _ _ _ _ _ E Hr).
Qed.

Lemma evaluate_returns_only_if_keys_readable_witness :
  has_column "QUESTION_NO" key_example = true
  /\ Forall (fun row => is_Some (series_get "ANSWER_KEY" row)
                        /\ is_Some (series_get "MARKS" row)) (rows key_example).
Proof.
  apply (evaluate_returns_only_if_keys_readable students_example world_example
           (evaluate students_example world_example).2
           (frame_of_rows
              [ [("Class", CInt 1); ("Paper", CInt 1); ("Q_1", CInt 10);
                 ("Q_2", CStr "x"); ("Total_Marks", CInt 10)];
                [("Class", CInt 1); ("Paper", CInt 9); ("Q_1", CInt 0);
                 ("Q_2", CInt 0); ("Total_Marks", CInt 0)] ])
           student_matched).
  - vm_compute. reflexivity.
  - left.
  - vm_compute. reflexivity.
Defined.

(** Text in a MARKS cell is harmless until it is awarded: the evaluation
    of a student row raises as soon as an answer earns marks that are
    text, and returns only if every award is a number. *)
Theorem text_marks_awarded_raise (students_df : DataFrame) (student : Series)
    (w : World) (ans_df : DataFrame) (row : Series) (c s : string) :
  answer_keys w !! student_identity student = Some ans_df ->
  row ∈ rows (coerce_question_no ans_df) ->
  key_row_outcome students_df student row = Ok (Scored c (CStr s)) ->
  exists e, (evaluate_student students_df student w).1 = Raise e.
Proof.
  intros E Hrow Ho.
  destruct (evaluate_student students_df student w) as [[r|e] w1] eqn:Es;
    [|by exists e].
  destruct (proj1 (evaluate_student_matched_Ok _ _ _ _ _ _ E) Es)
    as (_ & outs & total & HF & Hsum & _).
  destruct (py_sum_from_numeric (CInt 0) _ _ eq_refl Hsum) as [_ Hnum].
  destruct (outcome_of_row _ _ _ _ _ HF Hrow) as (o & Hin & Ho').
  rewrite Ho in Ho'. injection Ho' as <-.
  apply elem_of_awards_Scored in Hin.
  rewrite Forall_forall in Hnum.
  assert (is_numeric (CStr s) = true) as Hbad.
  { apply Hnum. apply list_elem_of_fmap. exists (c, CStr s). done. }
  done.
Qed.

Lemma text_marks_awarded_raise_witness :
  exists e,
    (evaluate_student students_example student_matched world_text_marks).1 = Raise e.
Proof.
  apply (text_marks_awarded_raise students_example student_matched world_text_marks
           key_text_marks
           [("QUESTION_NO", CStr "1"); ("ANSWER_KEY", CStr "B,A");
            ("MARKS", CStr "ten"); ("QUESTION_TYPE", CStr "AND")]
           "Q_1" "ten").
  - vm_compute. reflexivity.
  - vm_compute. left.
  - vm_compute. reflexivity.
Defined.

(** ** The warnings of a student row *)

Lemma outcome_warnings_missing students_df student l outs :
  Forall2 (fun row o => key_row_outcome students_df student row = Ok o)
    (map coerce_row l) outs ->
  outcome_warnings outs
  = omap (fun row =>
            let q_no := raw_q_no row in
            if has_column (question_col q_no) students_df then None
            else Some (missing_column_warning (question_col q_no) q_no)) l.
Proof.
  revert outs. induction l as [|row l IH]; intros outs HF.
  - by inversion HF.
  - simpl in HF. inversion HF as [|? o ? outs' Ho HF']; subst.
    change (o :: outs') with ([o] ++ outs')%list.
    rewrite outcome_warnings_app, (IH outs' HF').
    change (row :: l) with ([row] ++ l)%list. rewrite omap_app. f_equal.
    destruct o as [c a|c q].
    + apply outcome_Scored_inv in Ho as (q & ? & ? & ? & Hq & -> & Hc & _).
      rewrite key_q_no_coerce_row in Hq. injection Hq as <-.
      unfold outcome_warnings. simpl. by rewrite Hc.
    + apply outcome_Missing_inv in Ho as (Hq & -> & Hc).
      rewrite key_q_no_coerce_row in Hq. injection Hq as <-.
      unfold outcome_warnings. simpl. by rewrite Hc.
Qed.

(** The evaluation of a matched student row that returns reports exactly
    one warning for each key row whose question column the student table
    lacks, in key order and after the warnings reported before; so a key
    with such a row repeats its warning for every student it matches. *)
Theorem student_row_warnings (students_df : DataFrame) (student : Series)
    (w w' : World) (ans_df : DataFrame) (row_result : Series) :
  answer_keys w !! student_identity student = Some ans_df ->
  evaluate_student students_df student w = (Ok row_result, w') ->
  warnings w' = (warnings w ++ missing_warnings students_df ans_df)%list.
Proof.
  intros E Hev.
  destruct (proj1 (evaluate_student_matched_Ok _ _ _ _ _ _ E) Hev)
    as (_ & outs & total & HF & _ & _ & ->).
  rewrite rows_coerce_question_no in HF. simpl.
  by rewrite (outcome_warnings_missing _ _ _ _ HF).
Qed.

Lemma student_row_warnings_witness :
  warnings (evaluate_student students_example student_matched world_example).2
  = (warnings world_example ++ missing_warnings students_example key_example)%list.
Proof.
  apply (student_row_warnings students_example student_matched world_example
           (evaluate_student students_example student_matched world_example).2
           key_example
           [("Class", CInt 1); ("Paper", CInt 1); ("Q_1", CInt 10);
            ("Q_2", CStr "x"); ("Total_Marks", CInt 10)]).
  - vm_compute. reflexivity.
  - vm_compute. reflexivity.
Defined.

(** ** White space around an answer *)

Lemma lstrip_by_app_space sp pad s :
  (forall c, PyStr.isspace c = true -> sp c = true) ->
  all_space pad = true ->
  PyStr.lstrip_by sp (pad ++ s) = PyStr.lstrip_by sp s.
Proof.
  intros Hsp. induction pad as [|c pad IH]; simpl; [done|].
  intros [Hc Hpad]%andb_prop. rewrite (Hsp c Hc). by apply IH.
Qed.

Lemma lstrip_by_space sp pad :
  (forall c, PyStr.isspace c = true -> sp c = true) ->
  all_space pad = true -> PyStr.lstrip_by sp pad = EmptyString.
Proof.
  intros Hsp. induction pad as [|c pad IH]; simpl; [done|].
  intros [Hc Hpad]%andb_prop. rewrite (Hsp c Hc). by apply IH.
Qed.

Lemma rstrip_by_space sp pad :
  (forall c, PyStr.isspace c = true -> sp c = true) ->
  all_space pad = true -> PyStr.rstrip_by sp pad = EmptyString.
Proof.
  intros Hsp. induction pad as [|c pad IH]; simpl; [done|].
  intros [Hc Hpad]%andb_prop. rewrite (IH Hpad). by rewrite (Hsp c Hc).
Qed.

Lemma rstrip_by_app_space sp s pad :
  (forall c, PyStr.isspace c = true -> sp c = true) ->
  all_space pad = true ->
  PyStr.rstrip_by sp (s ++ pad) = PyStr.rstrip_by sp s.
Proof.
  intros Hsp Hpad. induction s as [|c s IH]; simpl.
  - by apply rstrip_by_space.
  - by rewrite IH.
Qed.

Lemma strip_by_app_space sp s pad :
  (forall c, PyStr.isspace c = true -> sp c = true) ->
  all_space pad = true ->
  PyStr.strip_by sp (s ++ pad) = PyStr.strip_by sp s.
Proof.
  intros Hsp Hpad. unfold PyStr.strip_by. induction s as [|c s IH].
  - change (EmptyString ++ pad) with pad.
    by rewrite (lstrip_by_space sp pad Hsp Hpad).
  - change (String c s ++ pad) with (String c (s ++ pad)).
    cbn [PyStr.lstrip_by]. destruct (sp c); [apply IH|].
    change (String c (s ++ pad)) with (String c s ++ pad).
    by apply rstrip_by_app_space.
Qed.

Lemma strip_padded pad s pad' :
  all_space pad = true -> all_space pad' = true ->
  PyStr.strip (pad ++ s ++ pad') = PyStr.strip s.
Proof.
  intros Hpad Hpad'. unfold PyStr.strip, PyStr.strip_by.
  rewrite lstrip_by_app_space by done.
  by apply (strip_by_app_space PyStr.isspace).
Qed.

(** White space before and after the text of a cell changes neither the
    answer set read from it nor the class or paper read from it. *)
Theorem surrounding_space_ignored (pad s pad' : string) (student : Series) :
  all_space pad = true -> all_space pad' = true ->
  parse_options (CStr (pad ++ s ++ pad')) = parse_options (CStr s)
  /\ student_identity (series_set "Class" (CStr (pad ++ s ++ pad')) student)
     = student_identity (series_set "Class" (CStr s) student)
  /\ student_identity (series_set "Paper" (CStr (pad ++ s ++ pad')) student)
     = student_identity (series_set "Paper" (CStr s) student).
Proof.
  intros Hpad Hpad'.
  pose proof (strip_padded pad s pad' Hpad Hpad') as Hs.
  split; [|split].
  - unfold parse_options. simpl. by rewrite Hs.
  - unfold student_identity, series_get_default.
    rewrite !series_get_set_eq. simpl. rewrite Hs.
    by rewrite !series_get_set_ne by discriminate.
  - unfold student_identity, series_get_default.
    rewrite !series_get_set_eq. simpl. rewrite Hs.
    by rewrite !series_get_set_ne by discriminate.
Qed.

Lemma surrounding_space_ignored_witness :
  parse_options (CStr ("  " ++ "A,B" ++ " ")) = parse_options (CStr "A,B").
Proof.
  refine (proj1 (surrounding_space_ignored "  " "A,B" " " student_matched _ _));
    reflexivity.
Defined.

(** * Properties of the upload layer *)

(** ** Splitting a file name *)

Lemma split_cons c s : exists p ps, PyStr.split c s = p :: ps.
Proof.
  induction s as [|d s (p & ps & IH)]; simpl; [by eexists _, _|].
  destruct (Ascii.eqb d c); [by eexists _, _|]. rewrite IH. by eexists _, _.
Qed.

Lemma split_first c s : is_Some (PyStr.split c s !! 0%nat).
Proof. destruct (split_cons c s) as (p & ps & ->). by eexists. Qed.

(** There is a second piece exactly when the separator occurs. *)
Lemma split_second c s :
  is_Some (PyStr.split c s !! 1%nat) <-> PyStr.contains c s = true.
Proof.
  induction s as [|d s IH]; simpl.
  - split; [by intros [? ?] | done].
  - destruct (Ascii.eqb d c); simpl.
    + split; [done|]. intros _. apply split_first.
    + destruct (split_cons c s) as (p & ps & E). rewrite E in IH |- *. apply IH.
Qed.

Lemma contains_app c s1 s2 :
  PyStr.contains c (s1 ++ s2) = PyStr.contains c s1 || PyStr.contains c s2.
Proof.
  induction s1 as [|d s1 IH]; simpl; [done|]. by destruct (Ascii.eqb d c).
Qed.

(** The text before the first separator. *)
Lemma split_first_app c s1 s2 :
  lacks c s1 ->
  PyStr.split c (s1 ++ s2) !! 0%nat = (fun p => s1 ++ p) <$> PyStr.split c s2 !! 0%nat.
Proof.
  unfold lacks. induction s1 as [|d s1 IH].
  - intros _. change (EmptyString ++ s2) with s2.
    destruct (PyStr.split c s2 !! 0%nat); reflexivity.
  - change (String d s1 ++ s2) with (String d (s1 ++ s2)). simpl.
    destruct (Ascii.eqb d c); [done|]. intros H. specialize (IH H).
    destruct (split_cons c (s1 ++ s2)) as (p & ps & E).
    destruct (split_cons c s2) as (p2 & ps2 & E2).
    rewrite E. rewrite E, E2 in IH. simpl in *. rewrite E2. simpl.
    injection IH as ->. done.
Qed.

Lemma string_app_empty_r (s : string) : s ++ EmptyString = s.
Proof.
  induction s as [|d s IH]; [done|].
  change (String d s ++ EmptyString) with (String d (s ++ EmptyString)).
  by rewrite IH.
Qed.

Lemma string_app_assoc (s1 s2 s3 : string) : (s1 ++ s2) ++ s3 = s1 ++ (s2 ++ s3).
Proof.
  induction s1 as [|d s1 IH]; [done|].
  change (String d s1 ++ s2) with (String d (s1 ++ s2)).
  change (String d (s1 ++ s2) ++ s3) with (String d ((s1 ++ s2) ++ s3)).
  by rewrite IH.
Qed.

Lemma split_first_sep c s1 s2 :
  lacks c s1 -> PyStr.split c (s1 ++ String c s2) !! 0%nat = Some s1.
Proof.
  intros H. rewrite split_first_app by done. simpl. rewrite Ascii.eqb_refl. simpl.
  by rewrite string_app_empty_r.
Qed.

(** The text between the first separator and the second. *)
Lemma split_second_app c s1 s2 :
  lacks c s1 ->
  PyStr.split c (s1 ++ String c s2) !! 1%nat = PyStr.split c s2 !! 0%nat.
Proof.
  unfold lacks. induction s1 as [|d s1 IH].
  - intros _. change (EmptyString ++ String c s2) with (String c s2).
    simpl. by rewrite Ascii.eqb_refl.
  - change (String d s1 ++ String c s2) with (String d (s1 ++ String c s2)). simpl.
    destruct (Ascii.eqb d c); [done|]. intros H. specialize (IH H).
    destruct (split_cons c (s1 ++ String c s2)) as (p & ps & E).
    rewrite E. by rewrite E in IH.
Qed.

Lemma split_first_skip c d s :
  Ascii.eqb d c = false ->
  PyStr.split c (String d s) !! 0%nat = String d <$> PyStr.split c s !! 0%nat.
Proof.
  intros H. simpl. rewrite H. by destruct (split_cons c s) as (p & ps & ->).
Qed.

(** The name of a key file is taken apart whenever it holds a "C" and a
    "P", and only then: no other part of the naming convention is
    checked. *)
Theorem key_class_paper_accepts (filename : string) :
  is_Some (key_class_paper filename)
  <-> PyStr.contains "C" filename = true /\ PyStr.contains "P" filename = true.
Proof.
  unfold key_class_paper. rewrite <- !split_second.
  destruct (PyStr.split "C" filename !! 1%nat) as [x|]; simpl.
  - destruct (split_first "P" x) as [cls ->]. simpl.
    destruct (PyStr.split "P" filename !! 1%nat) as [y|]; simpl.
    + destruct (split_first "." y) as [pap ->]. simpl. by split; [|eexists].
    + split; [by intros [? ?] | by intros [_ [? ?]]].
  - split; [by intros [? ?] | by intros [[? ?] _]].
Qed.

Lemma key_class_paper_conventional_aux (pre cls pap ext : string) :
  lacks "C" pre -> lacks "P" pre ->
  lacks "C" cls -> lacks "P" cls ->
  lacks "P" pap -> lacks "." pap ->
  key_class_paper (pre ++ "C" ++ cls ++ "P" ++ pap ++ "." ++ ext) = Some (cls, pap).
Proof.
  intros HpC HpP HcC HcP HaP Had. unfold key_class_paper.
  change ("C" ++ cls ++ "P" ++ pap ++ "." ++ ext)
    with (String "C" (cls ++ String "P" (pap ++ String "." ext))).
  rewrite split_second_app by done.
  rewrite split_first_app by done.
  rewrite split_first_skip by done.
  destruct (split_first "C" (pap ++ String "." ext)) as [z ->]. simpl.
  rewrite split_first_sep by done. simpl.
  replace (pre ++ String "C" (cls ++ String "P" (pap ++ String "." ext)))
    with ((pre ++ String "C" cls) ++ String "P" (pap ++ String "." ext)).
  2: { by rewrite string_app_assoc. }
  rewrite split_second_app.
  2: { unfold lacks in *. rewrite contains_app. simpl. by rewrite HpP, HcP. }
  rewrite split_first_app by done.
  rewrite split_first_skip by done.
  destruct (split_first "P" ext) as [z' ->]. simpl.
  by rewrite split_first_sep.
Qed.

(** A name of the form [pre C class P paper . ext], in which the prefix
    and the class hold no "C" or "P" and the paper no "P" or ".", gives
    class and paper as written, whatever the extension is. *)
Theorem key_class_paper_conventional (pre cls pap ext : string) :
  lacks "C" pre -> lacks "P" pre ->
  lacks "C" cls -> lacks "P" cls ->
  lacks "P" pap -> lacks "." pap ->
  key_class_paper (pre ++ "C" ++ cls ++ "P" ++ pap ++ "." ++ ext) = Some (cls, pap).
Proof. apply key_class_paper_conventional_aux. Qed.

Lemma key_class_paper_conventional_witness :
  key_class_paper (EmptyString ++ "C" ++ "1" ++ "P" ++ "2" ++ "." ++ "csv")
  = Some ("1", "2").
Proof. apply key_class_paper_conventional; reflexivity. Defined.

Example key_class_paper_examples :
  map key_class_paper ["C1P2.csv"; "C10P3.XLSX"; "c1p2.csv"; "C1.csv"; "P1.csv";
                       "KEY_C 1 P 2 .csv"; "PC.csv"; "ClassC1P2.csv"]
  = [Some ("1", "2"); Some ("10", "3"); None; None; None;
     Some (" 1 ", " 2 "); Some (".csv", "C"); Some ("lass", "2")].
Proof. vm_compute. reflexivity. Qed.

(** ** Reading a file *)

Lemma endswith_app suffix s : endswith suffix (s ++ suffix) = true.
Proof.
  induction s as [|d s IH].
  - change (EmptyString ++ suffix) with suffix.
    destruct suffix; [done|]. cbn [endswith]. by rewrite String.eqb_refl.
  - change (String d s ++ suffix) with (String d (s ++ suffix)).
    cbn [endswith]. rewrite IH. apply orb_true_r.
Qed.

Lemma endswith_inv suffix s :
  endswith suffix s = true -> exists p, s = p ++ suffix.
Proof.
  induction s as [|d s IH]; cbn [endswith].
  - rewrite orb_false_r. intros <-%String.eqb_eq. by exists EmptyString.
  - intros [<-%String.eqb_eq | H]%orb_prop.
    + by exists EmptyString.
    + destruct (IH H) as (p & ->). by exists (String d p).
Qed.

(** The last character of a string. *)
Lemma last_char_app (p : string) (c : ascii) (s d : string) (e : ascii) (t : string) :
  p ++ s ++ String c EmptyString = d ++ t ++ String e EmptyString -> c = e.
Proof.
  rewrite <- !string_app_assoc.
  generalize (p ++ s). generalize (d ++ t). clear.
  intros a b. revert a. induction b as [|x b IH]; intros [|y a].
  - by intros [= ->].
  - change (String y a ++ String e EmptyString)
      with (String y (a ++ String e EmptyString)).
    destruct a; simpl; intros [= _ H]; discriminate.
  - change (String x b ++ String c EmptyString)
      with (String x (b ++ String c EmptyString)).
    destruct b; simpl; intros [= _ H]; discriminate.
  - change (String x b ++ String c EmptyString)
      with (String x (b ++ String c EmptyString)).
    change (String y a ++ String e EmptyString)
      with (String y (a ++ String e EmptyString)).
    intros [= _ H]. by apply (IH a).
Qed.

Lemma lower_app s1 s2 : PyStr.lower (s1 ++ s2) = PyStr.lower s1 ++ PyStr.lower s2.
Proof.
  unfold PyStr.lower. induction s1 as [|d s1 IH]; [done|].
  change (String d s1 ++ s2) with (String d (s1 ++ s2)). simpl. by rewrite IH.
Qed.

Lemma not_csv_if_excel base :
  endswith ".csv" (base ++ ".xls") = false
  /\ endswith ".csv" (base ++ ".xlsx") = false.
Proof.
  split.
  - destruct (endswith ".csv" (base ++ ".xls")) eqn:E; [|done].
    apply endswith_inv in E as (p & E).
    pose proof (last_char_app base "s" ".xl" p "v" ".cs" E). done.
  - destruct (endswith ".csv" (base ++ ".xlsx")) eqn:E; [|done].
    apply endswith_inv in E as (p & E).
    pose proof (last_char_app base "x" ".xls" p "v" ".cs" E). done.
Qed.

(** The extension decides the reader, in whatever case it is written: a
    name that ends in .csv is read as CSV, one that ends in .xls or .xlsx
    as Excel, and the table is the reader's; a reader's exception gives
    no table. *)
Theorem extension_decides_reader (file : UploadedFile) (base ext : string) :
  file_name file = base ++ ext ->
  (PyStr.lower ext = ".csv" ->
   (read_uploaded_file file).1
   = match read_csv_outcome file with inr df => Some df | inl _ => None end)
  /\ (PyStr.lower ext = ".xls" \/ PyStr.lower ext = ".xlsx" ->
      (read_uploaded_file file).1
      = match read_excel_outcome file with inr df => Some df | inl _ => None end).
Proof.
  intros Hname. unfold read_uploaded_file. rewrite Hname, lower_app. split.
  - intros ->. rewrite endswith_app. by destruct (read_csv_outcome file).
  - intros Hx.
    assert (endswith ".csv" (PyStr.lower base ++ PyStr.lower ext) = false) as ->.
    { destruct (not_csv_if_excel (PyStr.lower base)). by destruct Hx as [-> | ->]. }
    assert (endswith ".xls" (PyStr.lower base ++ PyStr.lower ext)
            || endswith ".xlsx" (PyStr.lower base ++ PyStr.lower ext) = true) as ->.
    { destruct Hx as [-> | ->]; rewrite endswith_app; [done | apply orb_true_r]. }
    by destruct (read_excel_outcome file).
Qed.

Lemma extension_decides_reader_witness :
  (read_uploaded_file {| file_name := "Students.CSV";
                         read_csv_outcome := inr students_example;
                         read_excel_outcome := inl "not a workbook" |}).1
  = Some students_example.
Proof.
  refine (proj1 (extension_decides_reader
                   {| file_name := "Students.CSV";
                      read_csv_outcome := inr students_example;
                      read_excel_outcome := inl "not a workbook" |}
                   "Students" ".CSV" _) _); reflexivity.
Defined.

(** A file is reported exactly when it gives no table: then with one
    error, and never with a success. *)
Lemma read_uploaded_file_notices file :
  match (read_uploaded_file file).1 with
  | Some _ => (read_uploaded_file file).2 = []
  | None => exists msg, (read_uploaded_file file).2 = [StError msg]
  end.
Proof.
  unfold read_uploaded_file.
  destruct (endswith ".csv" _); [destruct (read_csv_outcome file); simpl; eauto|].
  destruct (_ || _); [destruct (read_excel_outcome file); simpl; eauto|].
  simpl. eauto.
Qed.

(** ** Building the registry *)

Lemma load_key_file_keys keys log file :
  (load_key_file (keys, log) file).1
  = match loaded_key file with
    | Some (k, df) => <[k := df]> keys
    | None => keys
    end.
Proof.
  unfold load_key_file, loaded_key.
  destruct (key_class_paper (file_name file)) as [[cls pap]|]; [|done].
  by destruct (read_uploaded_file file) as [[df|] msgs].
Qed.

Lemma load_key_file_log keys log file :
  exists n,
    (load_key_file (keys, log) file).2 = (log ++ [n])%list
    /\ match loaded_key file with
       | Some _ => n = StSuccess ("✅ Loaded " ++ file_name file)
       | None => exists msg, n = StError msg
       end.
Proof.
  unfold load_key_file, loaded_key.
  destruct (key_class_paper (file_name file)) as [[cls pap]|]; [|by eauto].
  pose proof (read_uploaded_file_notices file) as Hn.
  destruct (read_uploaded_file file) as [[df|] msgs]; simpl in *.
  - subst msgs. eauto.
  - destruct Hn as (msg & ->). eauto.
Qed.

Lemma load_answer_keys_snoc files file :
  load_answer_keys (files ++ [file])
  = load_key_file (load_answer_keys files) file.
Proof. unfold load_answer_keys. by rewrite fold_left_app. Qed.

Lemma snoc_decomposition {A} (earlier later l : list A) (f g : A) :
  (earlier ++ f :: later = l ++ [g])%list ->
  (later = [] /\ f = g /\ earlier = l)
  \/ exists later', later = (later' ++ [g])%list /\ l = (earlier ++ f :: later')%list.
Proof.
  destruct later as [|x later _] using rev_ind.
  - intros H. apply app_inj_tail in H as [-> ->]. by left.
  - intros H. right. exists later.
    change (earlier ++ f :: later ++ [x])%list
      with (earlier ++ (f :: later) ++ [x])%list in H.
    rewrite app_assoc in H. apply app_inj_tail in H as [<- ->]. done.
Qed.

Lemma registry_lookup_last (uploaded_keys : list UploadedFile)
    (k : string * string) (df : DataFrame) :
  (load_answer_keys uploaded_keys).1 !! k = Some df
  <-> exists earlier file later,
      uploaded_keys = (earlier ++ file :: later)%list
      /\ loaded_key file = Some (k, df)
      /\ Forall (fun g => fst <$> loaded_key g <> Some k) later.
Proof.
  induction uploaded_keys as [|g l IH] using rev_ind.
  - simpl. rewrite lookup_empty. split; [done|].
    intros (earlier & f & later & H & _). by destruct earlier.
  - rewrite load_answer_keys_snoc.
    destruct (load_answer_keys l) as [keys log] eqn:El. simpl in IH.
    rewrite load_key_file_keys.
    destruct (loaded_key g) as [[k' df']|] eqn:Eg.
    + destruct (decide (k' = k)) as [->|Hne].
      * rewrite lookup_insert_eq. split.
        -- intros [= ->]. exists l, g, []. done.
        -- intros (earlier & f & later & H & Hf & Hlater).
           symmetry in H. apply snoc_decomposition in H as [(-> & -> & ->)|(later' & -> & ->)].
           ++ congruence.
           ++ apply Forall_app in Hlater as [_ Hg].
              apply Forall_cons in Hg as [Hg _]. rewrite Eg in Hg. by destruct Hg.
      * rewrite lookup_insert_ne by done. rewrite IH. split.
        -- intros (earlier & f & later & -> & Hf & Hlater).
           exists earlier, f, (later ++ [g])%list.
           split; [by rewrite <- app_assoc|]. split; [done|].
           apply Forall_app. split; [done|]. constructor; [|done].
           rewrite Eg. simpl. congruence.
        -- intros (earlier & f & later & H & Hf & Hlater).
           symmetry in H. apply snoc_decomposition in H as [(-> & -> & ->)|(later' & -> & ->)].
           ++ congruence.
           ++ apply Forall_app in Hlater as [Hlater _]. eauto 10.
    + rewrite IH. split.
      * intros (earlier & f & later & -> & Hf & Hlater).
        exists earlier, f, (later ++ [g])%list.
        split; [by rewrite <- app_assoc|]. split; [done|].
        apply Forall_app. split; [done|]. constructor; [|done]. by rewrite Eg.
      * intros (earlier & f & later & H & Hf & Hlater).
        symmetry in H. apply snoc_decomposition in H as [(-> & -> & ->)|(later' & -> & ->)].
        -- congruence.
        -- apply Forall_app in Hlater as [Hlater _]. eauto 10.
Qed.

(** The registry holds, under an identity, the table of the last key file
    that loaded with that identity: a later file of the same class and
    paper replaces an earlier one, and files that fail to load or that
    name another identity change nothing under it. *)
Theorem registry_holds_last_loaded (uploaded_keys : list UploadedFile)
    (k : string * string) (df : DataFrame) :
  (load_answer_keys uploaded_keys).1 !! k = Some df
  <-> exists earlier file later,
      uploaded_keys = (earlier ++ file :: later)%list
      /\ loaded_key file = Some (k, df)
      /\ Forall (fun g => fst <$> loaded_key g <> Some k) later.
Proof. apply registry_lookup_last. Qed.

(** Every key file is answered by exactly one notice, in the order of
    upload: the "Loaded" success for a file that went into the registry,
    an error for a file that did not. *)
Theorem one_notice_per_key_file (uploaded_keys : list UploadedFile) :
  Forall2 (fun file n =>
             match loaded_key file with
             | Some _ => n = StSuccess ("✅ Loaded " ++ file_name file)
             | None => exists msg, n = StError msg
             end)
    uploaded_keys (load_answer_keys uploaded_keys).2.
Proof.
  induction uploaded_keys as [|g l IH] using rev_ind; [constructor|].
  rewrite load_answer_keys_snoc.
  destruct (load_answer_keys l) as [keys log]. simpl in IH.
  destruct (load_key_file_log keys log g) as (n & -> & Hn).
  apply Forall2_app; [done|]. by constructor.
Qed.

(** ** Integer classes and papers *)

Lemma string_of_uint_chars d :
  all_chars digit_or_minus (NilEmpty.string_of_uint d) = true.
Proof. induction d; simpl; done. Qed.

Lemma of_Z_chars z : all_chars digit_or_minus (PyStr.of_Z z) = true.
Proof.
  unfold PyStr.of_Z, NilZero.string_of_int, NilZero.string_of_uint.
  destruct (Z.to_int z) as [d|d]; destruct d; simpl; try done;
    apply string_of_uint_chars.
Qed.

Lemma all_chars_lacks P c s :
  P c = false -> all_chars P s = true -> lacks c s.
Proof.
  intros Hc. unfold lacks. induction s as [|d s IH]; simpl; [done|].
  intros [Hd Hs]%andb_prop. destruct (Ascii.eqb_spec d c) as [->|_]; [congruence|].
  by apply IH.
Qed.

Lemma all_chars_rstrip P s :
  (forall c, P c = true -> PyStr.isspace c = false) ->
  all_chars P s = true -> PyStr.rstrip_by PyStr.isspace s = s.
Proof.
  intros HP. induction s as [|d s IH]; simpl; [done|].
  intros [Hd Hs]%andb_prop. rewrite (IH Hs). rewrite (HP d Hd). by destruct s.
Qed.

Lemma all_chars_strip P s :
  (forall c, P c = true -> PyStr.isspace c = false) ->
  all_chars P s = true -> PyStr.strip s = s.
Proof.
  intros HP Hs. unfold PyStr.strip, PyStr.strip_by.
  assert (PyStr.lstrip_by PyStr.isspace s = s) as ->.
  { destruct s as [|d s]; simpl in *; [done|].
    apply andb_prop in Hs as [Hd _]. by rewrite (HP d Hd). }
  by apply (all_chars_rstrip P).
Qed.

Lemma digit_or_minus_not_space c :
  digit_or_minus c = true -> PyStr.isspace c = false.
Proof.
  destruct c as [[|] [|] [|] [|] [|] [|] [|] [|]]; vm_compute; congruence.
Qed.

Lemma strip_of_Z z : PyStr.strip (PyStr.of_Z z) = PyStr.of_Z z.
Proof.
  apply (all_chars_strip digit_or_minus); [apply digit_or_minus_not_space|].
  apply of_Z_chars.
Qed.

Lemma key_class_paper_integers c p ext :
  key_class_paper ("C" ++ PyStr.of_Z c ++ "P" ++ PyStr.of_Z p ++ "." ++ ext)
  = Some (PyStr.of_Z c, PyStr.of_Z p).
Proof.
  apply (key_class_paper_conventional_aux EmptyString); try done;
    apply (all_chars_lacks digit_or_minus); try done; apply of_Z_chars.
Qed.

(** A key file named C<c>P<p> with any extension, for integers [c] and
    [p], that loads and is not followed by another file of the same class
    and paper, is the key of every student row whose Class and Paper cells
    hold the integers [c] and [p]. *)
Theorem integer_class_paper_finds_key (earlier later : list UploadedFile)
    (file : UploadedFile) (c p : Z) (ext : string) (df : DataFrame) (student : Series) :
  file_name file = "C" ++ PyStr.of_Z c ++ "P" ++ PyStr.of_Z p ++ "." ++ ext ->
  (read_uploaded_file file).1 = Some df ->
  Forall (fun g => fst <$> loaded_key g <> Some (PyStr.of_Z c, PyStr.of_Z p)) later ->
  series_get "Class" student = Some (CInt c) ->
  series_get "Paper" student = Some (CInt p) ->
  (load_answer_keys (earlier ++ file :: later)).1 !! student_identity student = Some df.
Proof.
  intros Hname Hread Hlater Hc Hp.
  assert (student_identity student = (PyStr.of_Z c, PyStr.of_Z p)) as ->.
  { unfold student_identity, series_get_default. rewrite Hc, Hp. simpl.
    by rewrite !strip_of_Z. }
  assert (loaded_key file = Some ((PyStr.of_Z c, PyStr.of_Z p), df)) as Hf.
  { unfold loaded_key. rewrite Hname, key_class_paper_integers, Hread.
    by rewrite !strip_of_Z. }
  apply registry_lookup_last. eauto 10.
Qed.

Lemma integer_class_paper_finds_key_witness :
  (load_answer_keys
     [ {| file_name := "C1P1.xlsx"; read_csv_outcome := inl "not CSV";
          read_excel_outcome := inr key_repeated |};
       {| file_name := "C1P1.csv"; read_csv_outcome := inr key_example;
          read_excel_outcome := inl "not a workbook" |};
       {| file_name := "notes.txt"; read_csv_outcome := inl "not CSV";
          read_excel_outcome := inl "not a workbook" |} ]).1
  !! student_identity student_matched = Some key_example.
Proof.
  apply (integer_class_paper_finds_key
           [ {| file_name := "C1P1.xlsx"; read_csv_outcome := inl "not CSV";
                read_excel_outcome := inr key_repeated |} ]
           [ {| file_name := "notes.txt"; read_csv_outcome := inl "not CSV";
                read_excel_outcome := inl "not a workbook" |} ]
           {| file_name := "C1P1.csv"; read_csv_outcome := inr key_example;
              read_excel_outcome := inl "not a workbook" |}
           1 1 "csv").
  - reflexivity.
  - vm_compute. reflexivity.
  - constructor; [|constructor]. vm_compute. discriminate.
  - reflexivity.
  - reflexivity.
Defined.

(** ** Pressing the button *)

Lemma load_answer_keys_none uploaded_keys :
  Forall (fun g => loaded_key g = None) uploaded_keys ->
  (load_answer_keys uploaded_keys).1 = ∅.
Proof.
  induction uploaded_keys as [|g l IH] using rev_ind; [done|].
  intros [Hl Hg]%Forall_app. apply Forall_cons in Hg as [Hg _].
  rewrite load_answer_keys_snoc.
  destruct (load_answer_keys l) as [keys log]. simpl in IH.
  rewrite load_key_file_keys, Hg. by apply IH.
Qed.

Lemma evaluate_rows_unmatched students_df l w :
  Forall (fun student => answer_keys w !! student_identity student = None) l ->
  evaluate_rows students_df l w
  = (Ok (map (fun student =>
                series_set "Total_Marks" (CInt 0)
                  (zero_question_cols (all_question_cols students_df) student)) l),
     w).
Proof.
  induction 1 as [|s l Hs _ IH]; [done|].
  rewrite evaluate_rows_cons, evaluate_student_unmatched by done. by rewrite IH.
Qed.

(** When a student file loads and key files were uploaded but none of them
    loads (wrong names, wrong formats, unreadable content), the run is not
    stopped: the evaluation returns a table with one row per student, and
    every row has 0 in every question column and in Total_Marks. *)
Theorem no_key_loaded_all_zero (file : UploadedFile) (students_df : DataFrame)
    (uploaded_keys : list UploadedFile) :
  (read_uploaded_file file).1 = Some students_df ->
  uploaded_keys <> [] ->
  Forall (fun g => loaded_key g = None) uploaded_keys ->
  exists log final_df w,
    evaluate_now (Some file) uploaded_keys = Evaluated log (Ok final_df) w
    /\ length (rows final_df) = length (rows students_df)
    /\ Forall (zero_marks students_df) (rows final_df)
    /\ warnings w = [].
Proof.
  intros Hread Hne Hnone.
  pose proof (load_answer_keys_none _ Hnone) as Hkeys.
  unfold evaluate_now. destruct uploaded_keys as [|g l]; [done|].
  destruct (read_uploaded_file file) as [[df|] msgs]; simpl in Hread; [|done].
  injection Hread as ->.
  destruct (load_answer_keys (g :: l)) as [keys log]. simpl in Hkeys. subst keys.
  unfold evaluate, bind, ret.
  rewrite evaluate_rows_unmatched.
  2: { apply Forall_forall. intros s _. simpl. apply lookup_empty. }
  eexists _, _, _. split; [reflexivity|]. simpl.
  split; [by rewrite length_map|]. split; [|done].
  apply Forall_forall. intros r Hr.
  apply list_elem_of_In, in_map_iff in Hr as (s & <- & _).
  apply zero_marks_unmatched.
Qed.

Lemma no_key_loaded_all_zero_witness :
  exists log final_df w,
    evaluate_now
      (Some {| file_name := "students.csv"; read_csv_outcome := inr students_example;
               read_excel_outcome := inl "not a workbook" |})
      [ {| file_name := "c1p1.csv"; read_csv_outcome := inr key_example;
           read_excel_outcome := inl "not a workbook" |} ]
    = Evaluated log (Ok final_df) w
    /\ length (rows final_df) = length (rows students_example)
    /\ Forall (zero_marks students_example) (rows final_df)
    /\ warnings w = [].
Proof.
  apply no_key_loaded_all_zero.
  - vm_compute. reflexivity.
  - discriminate.
  - constructor; [|constructor]. vm_compute. reflexivity.
Defined.
